(** * PriorityQueue: the ranking-and-blocking engine of [priorityqueue.py]

    A shallow embedding of the task store of [priorityqueue.py]: the score
    function [Task.calculate_score], the blocked/pending pass
    [_update_blocked_status], the cycle check [_would_create_cycle], the
    nine mutating operations of [PriorityQueue], the selectors [get_next]
    and [get_queue], the agent registry, the history and
    [clear_completed], followed by the properties of the specification
    and further properties of the code.

    Conventions of the embedding.
    - A Python [float] is a primitive binary64 float, so every product below
      is the product Python computes, rounding included.
    - A [datetime] is an integer count of microseconds on the clock that
      [datetime.now()] reads; every operation that reads the clock takes the
      reading as its argument [now].
    - [self._tasks] is an insertion-ordered dictionary: an association list
      whose order is the iteration order.  [self._agents] is only ever
      looked up by key: a finite map.
    - A method that assigns to attributes of a task held in the dictionary
      stores the task back under its key: the object is shared between the
      dictionary and the method.  Every task owns its [dependencies] list.
    - Methods that mutate the queue return the new queue next to their
      result.  The lock serialises the methods and saving to disk
      ([_save_data]) leaves the state alone; neither is modelled.
    - Recursion is not bounded by the interpreter's recursion limit. *)

From Stdlib Require Import ZArith QArith Uint63 Floats.PrimFloat.
From stdpp Require Import gmap strings list sorting.

Set Warnings "-inexact-float".
Local Open Scope Z_scope.

(** ** Enumerations *)

Inductive TaskStatus :=
  | PENDING | IN_PROGRESS | BLOCKED | COMPLETED | CANCELLED | FAILED.

Inductive TaskPriority := CRITICAL | HIGH | MEDIUM | LOW | BACKLOG.

Inductive TaskCategory :=
  | DEVELOPMENT | DOCUMENTATION | TESTING | BUGFIX | FEATURE | RESEARCH
  | COORDINATION | MAINTENANCE | URGENT | OTHER.

#[global] Instance TaskStatus_eq_dec : EqDecision TaskStatus.
Proof. solve_decision. Defined.
#[global] Instance TaskPriority_eq_dec : EqDecision TaskPriority.
Proof. solve_decision. Defined.
#[global] Instance TaskCategory_eq_dec : EqDecision TaskCategory.
Proof. solve_decision. Defined.

(** [TaskPriority.value] *)
Definition value (p : TaskPriority) : Z :=
  match p with
  | CRITICAL => 1 | HIGH => 2 | MEDIUM => 3 | LOW => 4 | BACKLOG => 5
  end.

(** ** Timestamps

    The timestamp fields are strings that the code only ever hands to
    [datetime.fromisoformat] inside a [try] that swallows [ValueError] and
    [TypeError].  A string is therefore either [Instant us], the text that
    [datetime.isoformat] writes for the instant [us] and that parses back
    to it, or [Garbled raw], a text for which the guarded computation
    raises (it does not parse, or it parses to a datetime carrying a UTC
    offset, which cannot be subtracted from the naive [datetime.now()]). *)

Inductive isostring :=
  | Instant (us : Z)
  | Garbled (raw : string).

Definition isoformat (dt : Z) : isostring := Instant dt.

(** [datetime.fromisoformat], [None] standing for the exception. *)
Definition fromisoformat (s : isostring) : option Z :=
  match s with
  | Instant us => Some us
  | Garbled _ => None
  end.

(** Truth value of a string: the empty string is false. *)
Definition str_truthy (s : string) : bool := negb (bool_decide (s = "")).

Definition iso_truthy (s : isostring) : bool :=
  match s with
  | Instant _ => true
  | Garbled raw => str_truthy raw
  end.

(** [timedelta.total_seconds()]: a timedelta is a whole number of
    microseconds.  The hour counts derived from it are only compared with
    0, 1, 4, 24 and 72, all exactly representable; rounding to binary64 is
    monotone, so the comparisons on the exact quotient below select the
    same branch as the comparisons on the rounded one. *)
Definition total_seconds (delta : Z) : Q := delta # 1000000.

Definition Qltb (x y : Q) : bool := negb (Qle_bool y x).

(** [timedelta(days=n)], in microseconds. *)
Definition days (n : Z) : Z := n * 24 * 3600 * 1000000.

(** ** Records

    The fields of the dataclasses, in their order.  The [metadata] bag of a
    task is never read and is left out. *)

Record Task := mkTask {
  id : string;
  title : string;
  description : string;
  status : TaskStatus;
  priority : TaskPriority;
  category : TaskCategory;
  assigned_agent : string;
  created_by : string;
  created_at : isostring;
  deadline : option isostring;
  dependencies : list string;
  tags : list string;
  estimated_duration : Z;
  actual_duration : option Z;
  started_at : option isostring;
  completed_at : option isostring;
  notes : string
}.

Record AgentStatus := mkAgentStatus {
  name : string;
  available : bool;
  current_task : option string;
  last_active : isostring;
  completed_today : Z;
  capabilities : list string;
  max_concurrent : Z
}.

(** Attribute assignments [task.field = v]. *)
Definition set_status (v : TaskStatus) (t : Task) : Task :=
  mkTask (id t) (title t) (description t) v (priority t) (category t)
    (assigned_agent t) (created_by t) (created_at t) (deadline t)
    (dependencies t) (tags t) (estimated_duration t) (actual_duration t)
    (started_at t) (completed_at t) (notes t).

Definition set_priority (v : TaskPriority) (t : Task) : Task :=
  mkTask (id t) (title t) (description t) (status t) v (category t)
    (assigned_agent t) (created_by t) (created_at t) (deadline t)
    (dependencies t) (tags t) (estimated_duration t) (actual_duration t)
    (started_at t) (completed_at t) (notes t).

Definition set_deadline (v : option isostring) (t : Task) : Task :=
  mkTask (id t) (title t) (description t) (status t) (priority t) (category t)
    (assigned_agent t) (created_by t) (created_at t) v
    (dependencies t) (tags t) (estimated_duration t) (actual_duration t)
    (started_at t) (completed_at t) (notes t).

Definition set_title (v : string) (t : Task) : Task :=
  mkTask (id t) v (description t) (status t) (priority t) (category t)
    (assigned_agent t) (created_by t) (created_at t) (deadline t)
    (dependencies t) (tags t) (estimated_duration t) (actual_duration t)
    (started_at t) (completed_at t) (notes t).

Definition set_description (v : string) (t : Task) : Task :=
  mkTask (id t) (title t) v (status t) (priority t) (category t)
    (assigned_agent t) (created_by t) (created_at t) (deadline t)
    (dependencies t) (tags t) (estimated_duration t) (actual_duration t)
    (started_at t) (completed_at t) (notes t).

Definition set_category (v : TaskCategory) (t : Task) : Task :=
  mkTask (id t) (title t) (description t) (status t) (priority t) v
    (assigned_agent t) (created_by t) (created_at t) (deadline t)
    (dependencies t) (tags t) (estimated_duration t) (actual_duration t)
    (started_at t) (completed_at t) (notes t).

Definition set_assigned_agent (v : string) (t : Task) : Task :=
  mkTask (id t) (title t) (description t) (status t) (priority t) (category t)
    v (created_by t) (created_at t) (deadline t)
    (dependencies t) (tags t) (estimated_duration t) (actual_duration t)
    (started_at t) (completed_at t) (notes t).

Definition set_dependencies (v : list string) (t : Task) : Task :=
  mkTask (id t) (title t) (description t) (status t) (priority t) (category t)
    (assigned_agent t) (created_by t) (created_at t) (deadline t)
    v (tags t) (estimated_duration t) (actual_duration t)
    (started_at t) (completed_at t) (notes t).

Definition set_tags (v : list string) (t : Task) : Task :=
  mkTask (id t) (title t) (description t) (status t) (priority t) (category t)
    (assigned_agent t) (created_by t) (created_at t) (deadline t)
    (dependencies t) v (estimated_duration t) (actual_duration t)
    (started_at t) (completed_at t) (notes t).

Definition set_estimated_duration (v : Z) (t : Task) : Task :=
  mkTask (id t) (title t) (description t) (status t) (priority t) (category t)
    (assigned_agent t) (created_by t) (created_at t) (deadline t)
    (dependencies t) (tags t) v (actual_duration t)
    (started_at t) (completed_at t) (notes t).

Definition set_actual_duration (v : option Z) (t : Task) : Task :=
  mkTask (id t) (title t) (description t) (status t) (priority t) (category t)
    (assigned_agent t) (created_by t) (created_at t) (deadline t)
    (dependencies t) (tags t) (estimated_duration t) v
    (started_at t) (completed_at t) (notes t).

Definition set_started_at (v : option isostring) (t : Task) : Task :=
  mkTask (id t) (title t) (description t) (status t) (priority t) (category t)
    (assigned_agent t) (created_by t) (created_at t) (deadline t)
    (dependencies t) (tags t) (estimated_duration t) (actual_duration t)
    v (completed_at t) (notes t).

Definition set_completed_at (v : option isostring) (t : Task) : Task :=
  mkTask (id t) (title t) (description t) (status t) (priority t) (category t)
    (assigned_agent t) (created_by t) (created_at t) (deadline t)
    (dependencies t) (tags t) (estimated_duration t) (actual_duration t)
    (started_at t) v (notes t).

Definition set_notes (v : string) (t : Task) : Task :=
  mkTask (id t) (title t) (description t) (status t) (priority t) (category t)
    (assigned_agent t) (created_by t) (created_at t) (deadline t)
    (dependencies t) (tags t) (estimated_duration t) (actual_duration t)
    (started_at t) (completed_at t) v.

(** ** [Task.calculate_score] *)

Definition float_of_int (n : Z) : float := PrimFloat.of_uint63 (Uint63.of_Z n).

Definition calculate_score (self : Task) (now : Z) : float :=
  let score := float_of_int (value (priority self)) in
  (* Urgency multiplier based on deadline *)
  let score :=
    match deadline self with
    | Some d =>
        if iso_truthy d then
          match fromisoformat d with
          | Some deadline_dt =>
              let hours_until_deadline :=
                (total_seconds (deadline_dt - now) / 3600)%Q in
              if Qltb hours_until_deadline 0 then (score * 0.1)%float
              else if Qltb hours_until_deadline 1 then (score * 0.3)%float
              else if Qltb hours_until_deadline 4 then (score * 0.5)%float
              else if Qltb hours_until_deadline 24 then (score * 0.7)%float
              else if Qltb hours_until_deadline 72 then (score * 0.9)%float
              else score
          | None => score
          end
        else score
    | None => score
    end in
  (* Age factor *)
  let score :=
    match fromisoformat (created_at self) with
    | Some created =>
        let age_hours := (total_seconds (now - created) / 3600)%Q in
        let score :=
          if Qltb 24 age_hours then (score * 0.95)%float else score in
        let score :=
          if Qltb 72 age_hours then (score * 0.90)%float else score in
        score
    | None => score
    end in
  (* Blocked tasks get penalty *)
  let score :=
    if bool_decide (status self = BLOCKED)
    then (score * float_of_int 10)%float else score in
  score.

(** ** The ordered dictionary [self._tasks]

    [get] is [dict.get], [setitem] is [d[k] = v] (an existing key keeps its
    place, a new key goes last), [pop] is [dict.pop], [values] is
    [dict.values()]. *)

Fixpoint get {V : Type} (d : list (string * V)) (k : string) : option V :=
  match d with
  | [] => None
  | (k', v) :: d' => if decide (k' = k) then Some v else get d' k
  end.

Fixpoint setitem {V : Type} (d : list (string * V)) (k : string) (v : V)
  : list (string * V) :=
  match d with
  | [] => [(k, v)]
  | (k', v') :: d' =>
      if decide (k' = k) then (k', v) :: d' else (k', v') :: setitem d' k v
  end.

Fixpoint pop {V : Type} (d : list (string * V)) (k : string)
  : list (string * V) :=
  match d with
  | [] => []
  | (k', v') :: d' => if decide (k' = k) then d' else (k', v') :: pop d' k
  end.

Definition values {V : Type} (d : list (string * V)) : list V := map snd d.

(** ** The queue *)

Record HistoryEntry := mkHistoryEntry {
  timestamp : isostring;
  action : string;
  entry_task_id : string
}.

Record PriorityQueue := mkPriorityQueue {
  _tasks : list (string * Task);
  _agents : gmap string AgentStatus;
  _history : list HistoryEntry
}.

(** [_log_action]; the free-form [details] of an entry are not kept. *)
Definition _log_action (history : list HistoryEntry) (now : Z)
    (action task_id : string) : list HistoryEntry :=
  history ++ [mkHistoryEntry (isoformat now) action task_id].

(** ** [_update_blocked_status] *)

(** The generator handed to [all]: the dependency exists and is COMPLETED. *)
Definition all_deps_complete (tasks : list (string * Task)) (task : Task)
  : bool :=
  forallb
    (fun dep_id =>
       match get tasks dep_id with
       | Some dep_task => bool_decide (status dep_task = COMPLETED)
       | None => false
       end)
    (dependencies task).

Definition list_truthy {A : Type} (l : list A) : bool :=
  match l with [] => false | _ :: _ => true end.

(** The body of the loop, for one task, in the dictionary as it is when the
    loop reaches that task. *)
Definition refresh_status (tasks : list (string * Task)) (task : Task) : Task :=
  if bool_decide (status task ∈ [COMPLETED; CANCELLED; FAILED; IN_PROGRESS])
  then task
  else if list_truthy (dependencies task) then
    let complete := all_deps_complete tasks task in
    if negb complete then set_status BLOCKED task
    else if complete && bool_decide (status task = BLOCKED)
         then set_status PENDING task
         else task
  else
    if bool_decide (status task = BLOCKED) then set_status PENDING task
    else task.

(** The loop over [self._tasks.items()]: [done] holds the entries already
    visited (and possibly reassigned), [todo] the entries still to visit;
    each task is refreshed against the dictionary as mutated so far. *)
Fixpoint update_loop (done todo : list (string * Task))
  : list (string * Task) :=
  match todo with
  | [] => done
  | (task_id, task) :: rest =>
      update_loop
        (done ++ [(task_id, refresh_status (done ++ todo) task)]) rest
  end.

Definition update_blocked (tasks : list (string * Task))
  : list (string * Task) :=
  update_loop [] tasks.

Definition _update_blocked_status (self : PriorityQueue) : PriorityQueue :=
  mkPriorityQueue (update_blocked (_tasks self)) (_agents self)
    (_history self).

(** ** [_would_create_cycle]

    [dfs] is the nested function, with the [visited] set it shares threaded
    through the calls.  [depth] bounds the nesting of the recursive calls;
    [None] is a search cut off by the bound. *)

Fixpoint dfs_loop
    (call : string → gset string → option (bool * gset string))
    (deps : list string) (visited : gset string)
  : option (bool * gset string) :=
  match deps with
  | [] => Some (false, visited)
  | dep :: deps' =>
      match call dep visited with
      | None => None
      | Some (true, visited') => Some (true, visited')
      | Some (false, visited') => dfs_loop call deps' visited'
      end
  end.

Fixpoint dfs (depth : nat) (tasks : list (string * Task)) (task_id : string)
    (current : string) (visited : gset string)
  : option (bool * gset string) :=
  match depth with
  | O => None
  | S depth' =>
      if decide (current = task_id) then Some (true, visited)
      else if decide (current ∈ visited) then Some (false, visited)
      else
        let visited := visited ∪ {[current]} in
        match get tasks current with
        | None => Some (false, visited)
        | Some task =>
            dfs_loop (dfs depth' tasks task_id) (dependencies task) visited
        end
  end.

(** A search visits each task at most once, so the nesting never exceeds
    the number of tasks plus one ([dfs_depth_enough] below). *)
Definition _would_create_cycle (tasks : list (string * Task))
    (task_id new_dep : string) : bool :=
  match dfs (S (length tasks)) tasks task_id new_dep ∅ with
  | Some (found, _) => found
  | None => false
  end.

(** ** Agent management *)

Definition AGENTS : list string :=
  ["FORGE"; "ATLAS"; "CLIO"; "NEXUS"; "BOLT"; "PORTER"; "ANY"].

Definition _get_agent_capabilities (agent_name : string) : list string :=
  if decide (agent_name = "FORGE")
  then ["COORDINATION"; "DOCUMENTATION"; "RESEARCH"; "REVIEW"]
  else if decide (agent_name = "ATLAS")
  then ["DEVELOPMENT"; "TESTING"; "BUGFIX"; "FEATURE"]
  else if decide (agent_name = "CLIO")
  then ["DEVELOPMENT"; "MAINTENANCE"; "DOCUMENTATION"]
  else if decide (agent_name = "NEXUS")
  then ["RESEARCH"; "TESTING"; "DOCUMENTATION"]
  else if decide (agent_name = "BOLT")
  then ["DEVELOPMENT"; "BUGFIX"; "FEATURE"]
  else if decide (agent_name = "PORTER")
  then ["DEVELOPMENT"; "MOBILE"; "TESTING"]
  else ["OTHER"].

Definition _initialize_agents (self : PriorityQueue) (now : Z)
  : PriorityQueue :=
  mkPriorityQueue (_tasks self)
    (foldl
       (fun agents agent_name =>
          if bool_decide (agents !! agent_name = None ∧ agent_name ≠ "ANY")
          then <[agent_name :=
                   mkAgentStatus agent_name true None (isoformat now) 0
                     (_get_agent_capabilities agent_name) 1]> agents
          else agents)
       (_agents self) AGENTS)
    (_history self).

(** A queue created on an empty directory. *)
Definition new_queue (now : Z) : PriorityQueue :=
  _initialize_agents (mkPriorityQueue [] ∅ []) now.

(** ** Task management *)

(** [x or []] *)
Definition or_empty {A : Type} (x : option (list A)) : list A :=
  match x with
  | Some l => l
  | None => []
  end.

(** [if v is not None: task.field = v] *)
Definition assign_if_given {A : Type} (v : option A) (set : A → Task → Task)
    (task : Task) : Task :=
  match v with
  | Some x => set x task
  | None => task
  end.

(** [int(q)]: truncation towards zero. *)
Definition int_of_Q (q : Q) : Z := Z.quot (Qnum q) (Zpos (Qden q)).

(** [list.remove]: drops the first occurrence. *)
Fixpoint list_remove (x : string) (l : list string) : list string :=
  match l with
  | [] => []
  | y :: l' => if decide (y = x) then l' else y :: list_remove x l'
  end.

(** [add]; [task_id] is the identifier drawn from [uuid.uuid4()]. *)
Definition add (self : PriorityQueue) (task_id : string)
    (title' description' : string) (priority' : TaskPriority)
    (category' : TaskCategory) (assigned_agent' created_by' : string)
    (deadline' : option isostring)
    (dependencies' tags' : option (list string))
    (estimated_duration' : Z) (now : Z) : string * PriorityQueue :=
  let task :=
    mkTask task_id title' description' PENDING priority' category'
      assigned_agent' created_by' (isoformat now) deadline'
      (or_empty dependencies') (or_empty tags') estimated_duration'
      None None None "" in
  (* Check if blocked by dependencies *)
  let task :=
    if list_truthy (dependencies task) then
      if negb (all_deps_complete (_tasks self) task)
      then set_status BLOCKED task else task
    else task in
  (task_id,
   mkPriorityQueue (setitem (_tasks self) task_id task) (_agents self)
     (_log_action (_history self) now "ADD" task_id)).

Definition update (self : PriorityQueue) (task_id : string)
    (title' description' : option string) (priority' : option TaskPriority)
    (category' : option TaskCategory) (assigned_agent' : option string)
    (deadline' : option isostring) (tags' : option (list string))
    (estimated_duration' : option Z) (notes' : option string) (now : Z)
  : bool * PriorityQueue :=
  match get (_tasks self) task_id with
  | None => (false, self)
  | Some task =>
      let task := assign_if_given title' set_title task in
      let task := assign_if_given description' set_description task in
      let task := assign_if_given priority' set_priority task in
      let task := assign_if_given category' set_category task in
      let task := assign_if_given assigned_agent' set_assigned_agent task in
      let task :=
        assign_if_given deadline' (fun v => set_deadline (Some v)) task in
      let task := assign_if_given tags' set_tags task in
      let task :=
        assign_if_given estimated_duration' set_estimated_duration task in
      let task := assign_if_given notes' set_notes task in
      (true,
       mkPriorityQueue (setitem (_tasks self) task_id task) (_agents self)
         (_log_action (_history self) now "UPDATE" task_id))
  end.

Definition delete (self : PriorityQueue) (task_id : string) (now : Z)
  : bool * PriorityQueue :=
  match get (_tasks self) task_id with
  | None => (false, self)
  | Some task =>
      (true,
       mkPriorityQueue (pop (_tasks self) task_id) (_agents self)
         (_log_action (_history self) now "DELETE" task_id))
  end.

Definition start (self : PriorityQueue) (task_id : string)
    (agent : option string) (now : Z) : bool * PriorityQueue :=
  match get (_tasks self) task_id with
  | None => (false, self)
  | Some task =>
      if bool_decide (status task = BLOCKED) then (false, self)
      else
        let task := set_status IN_PROGRESS task in
        let task := set_started_at (Some (isoformat now)) task in
        let '(task, agents) :=
          match agent with
          | Some a =>
              if str_truthy a then
                (set_assigned_agent a task,
                 match _agents self !! a with
                 | Some st =>
                     <[a := mkAgentStatus (name st) false (Some task_id)
                              (last_active st) (completed_today st)
                              (capabilities st) (max_concurrent st)]>
                       (_agents self)
                 | None => _agents self
                 end)
              else (task, _agents self)
          | None => (task, _agents self)
          end in
        (true,
         mkPriorityQueue (setitem (_tasks self) task_id task) agents
           (_log_action (_history self) now "START" task_id))
  end.

Definition complete (self : PriorityQueue) (task_id : string)
    (notes' : string) (now : Z) : bool * PriorityQueue :=
  match get (_tasks self) task_id with
  | None => (false, self)
  | Some task =>
      let task := set_status COMPLETED task in
      let task := set_completed_at (Some (isoformat now)) task in
      let task := if str_truthy notes' then set_notes notes' task else task in
      (* Calculate actual duration *)
      let task :=
        match started_at task with
        | Some s =>
            if iso_truthy s then
              match fromisoformat s with
              | Some started =>
                  match completed_at task ≫= fromisoformat with
                  | Some completed =>
                      set_actual_duration
                        (Some
                           (int_of_Q
                              (total_seconds (completed - started) / 60)%Q))
                        task
                  | None => task
                  end
              | None => task
              end
            else task
        | None => task
        end in
      (* Update agent status *)
      let agents :=
        match _agents self !! assigned_agent task with
        | Some agent =>
            <[assigned_agent task :=
                mkAgentStatus (name agent) true None (isoformat now)
                  (completed_today agent + 1) (capabilities agent)
                  (max_concurrent agent)]> (_agents self)
        | None => _agents self
        end in
      (* Update blocked tasks that depend on this *)
      let tasks := update_blocked (setitem (_tasks self) task_id task) in
      (true,
       mkPriorityQueue tasks agents
         (_log_action (_history self) now "COMPLETE" task_id))
  end.

Definition fail (self : PriorityQueue) (task_id : string) (reason : string)
    (now : Z) : bool * PriorityQueue :=
  match get (_tasks self) task_id with
  | None => (false, self)
  | Some task =>
      let task := set_status FAILED task in
      let task := set_completed_at (Some (isoformat now)) task in
      let task :=
        if str_truthy reason then set_notes ("FAILED: " +:+ reason) task
        else task in
      (* Update agent status *)
      let agents :=
        match _agents self !! assigned_agent task with
        | Some agent =>
            <[assigned_agent task :=
                mkAgentStatus (name agent) true None (last_active agent)
                  (completed_today agent) (capabilities agent)
                  (max_concurrent agent)]> (_agents self)
        | None => _agents self
        end in
      (true,
       mkPriorityQueue (setitem (_tasks self) task_id task) agents
         (_log_action (_history self) now "FAIL" task_id))
  end.

Definition cancel (self : PriorityQueue) (task_id : string) (reason : string)
    (now : Z) : bool * PriorityQueue :=
  match get (_tasks self) task_id with
  | None => (false, self)
  | Some task =>
      let task := set_status CANCELLED task in
      let task :=
        if str_truthy reason then set_notes ("CANCELLED: " +:+ reason) task
        else task in
      (* Update agent status *)
      let agents :=
        match _agents self !! assigned_agent task with
        | Some agent =>
            if bool_decide (status task = IN_PROGRESS) then
              <[assigned_agent task :=
                  mkAgentStatus (name agent) true None (last_active agent)
                    (completed_today agent) (capabilities agent)
                    (max_concurrent agent)]> (_agents self)
            else _agents self
        | None => _agents self
        end in
      (true,
       mkPriorityQueue (setitem (_tasks self) task_id task) agents
         (_log_action (_history self) now "CANCEL" task_id))
  end.

Definition add_dependency (self : PriorityQueue) (task_id depends_on : string)
    (now : Z) : bool * PriorityQueue :=
  match get (_tasks self) task_id with
  | None => (false, self)
  | Some task =>
      match get (_tasks self) depends_on with
      | None => (false, self)
      | Some _ =>
          (* Check for circular dependency *)
          if _would_create_cycle (_tasks self) task_id depends_on
          then (false, self)
          else
            let task :=
              if bool_decide (depends_on ∉ dependencies task)
              then set_dependencies (dependencies task ++ [depends_on]) task
              else task in
            let tasks := update_blocked (setitem (_tasks self) task_id task) in
            (true,
             mkPriorityQueue tasks (_agents self)
               (_log_action (_history self) now "ADD_DEPENDENCY" task_id))
      end
  end.

Definition remove_dependency (self : PriorityQueue)
    (task_id depends_on : string) : bool * PriorityQueue :=
  match get (_tasks self) task_id with
  | None => (false, self)
  | Some task =>
      let task :=
        if bool_decide (depends_on ∈ dependencies task)
        then set_dependencies (list_remove depends_on (dependencies task)) task
        else task in
      let tasks := update_blocked (setitem (_tasks self) task_id task) in
      (true, mkPriorityQueue tasks (_agents self) (_history self))
  end.

(** ** Queue operations *)

(** [list.sort(key=...)]: a stable sort that compares keys with [<].  For
    keys that [<] orders totally every stable sort returns the same list;
    this one inserts each element before the first element whose key is
    not smaller, so equal keys keep their order. *)
Fixpoint insert_by {A : Type} (key : A → float) (x : A) (l : list A) : list A :=
  match l with
  | [] => [x]
  | y :: l' =>
      if PrimFloat.ltb (key y) (key x) then y :: insert_by key x l'
      else x :: y :: l'
  end.

Definition sort_by {A : Type} (key : A → float) (l : list A) : list A :=
  foldr (insert_by key) [] l.

Definition get_next (self : PriorityQueue) (agent : option string) (now : Z)
  : option Task * PriorityQueue :=
  let self := _update_blocked_status self in
  (* Get all pending tasks *)
  let candidates :=
    filter (fun task => status task = PENDING) (values (_tasks self)) in
  if negb (list_truthy candidates) then (None, self)
  else
    (* Filter by agent if specified *)
    let candidates :=
      match agent with
      | Some a =>
          if str_truthy a then
            filter
              (fun task => assigned_agent task = "ANY" ∨ assigned_agent task = a)
              candidates
          else candidates
      | None => candidates
      end in
    if negb (list_truthy candidates) then (None, self)
    else
      (* Sort by priority score and return best *)
      (head (sort_by (fun t => calculate_score t now) candidates), self).

(** ** Further methods of [PriorityQueue] and [Task] *)

(** [Task.__lt__], at the instant [now]. *)
Definition Task_lt (self other : Task) (now : Z) : bool :=
  PrimFloat.ltb (calculate_score self now) (calculate_score other now).

(** [PriorityQueue.get] *)
Definition get_task (self : PriorityQueue) (task_id : string) : option Task :=
  get (_tasks self) task_id.

(** The slices [l[:n]] and [l[-n:]]: a negative bound counts from the end
    and is clamped at the start of the list. *)
Definition slice_to {A : Type} (l : list A) (n : Z) : list A :=
  if n <? 0 then take (Z.to_nat (Z.of_nat (length l) + n)) l
  else take (Z.to_nat n) l.

Definition slice_last {A : Type} (l : list A) (n : Z) : list A :=
  let start := - n in
  if start <? 0 then drop (Z.to_nat (Z.of_nat (length l) + start)) l
  else drop (Z.to_nat start) l.

(** [get_queue]; the members of the enumerations are all true, so a filter
    is skipped only for [None]; an empty agent string is false. *)
Definition get_queue (self : PriorityQueue) (status' : option TaskStatus)
    (agent : option string) (category' : option TaskCategory)
    (priority' : option TaskPriority) (limit : Z) (now : Z)
  : list Task * PriorityQueue :=
  let self := _update_blocked_status self in
  let tasks := values (_tasks self) in
  (* Apply filters *)
  let tasks :=
    match status' with
    | Some s => filter (fun t => status t = s) tasks
    | None => tasks
    end in
  let tasks :=
    match agent with
    | Some a =>
        if str_truthy a then
          filter (fun t => assigned_agent t = a ∨ assigned_agent t = "ANY")
            tasks
        else tasks
    | None => tasks
    end in
  let tasks :=
    match category' with
    | Some c => filter (fun t => category t = c) tasks
    | None => tasks
    end in
  let tasks :=
    match priority' with
    | Some p => filter (fun t => priority t = p) tasks
    | None => tasks
    end in
  (* Sort by priority score *)
  let tasks := sort_by (fun t => calculate_score t now) tasks in
  (slice_to tasks limit, self).

Definition get_pending (self : PriorityQueue) (limit : Z) (now : Z)
  : list Task * PriorityQueue :=
  get_queue self (Some PENDING) None None None limit now.

Definition get_in_progress (self : PriorityQueue) (now : Z)
  : list Task * PriorityQueue :=
  get_queue self (Some IN_PROGRESS) None None None 100 now.

Definition get_blocked (self : PriorityQueue) (now : Z)
  : list Task * PriorityQueue :=
  get_queue self (Some BLOCKED) None None None 100 now.

Definition reorder (self : PriorityQueue) (now : Z)
  : list Task * PriorityQueue :=
  let self := _update_blocked_status self in
  get_pending self 50 now.

(** *** Agents *)

Definition set_agent_available (self : PriorityQueue) (agent : string)
    (available' : bool) (now : Z) : bool * PriorityQueue :=
  match _agents self !! agent with
  | None => (false, self)
  | Some st =>
      (true,
       mkPriorityQueue (_tasks self)
         (<[agent := mkAgentStatus (name st) available' (current_task st)
                       (isoformat now) (completed_today st)
                       (capabilities st) (max_concurrent st)]>
            (_agents self))
         (_history self))
  end.

Definition get_agent_status (self : PriorityQueue) (agent : string)
  : option AgentStatus :=
  _agents self !! agent.

Definition get_agent_tasks (self : PriorityQueue) (agent : string)
  : list Task :=
  filter
    (fun t =>
       assigned_agent t = agent ∧ status t ∈ [PENDING; IN_PROGRESS; BLOCKED])
    (values (_tasks self)).

(** *** History and bulk operations *)

Definition get_history (self : PriorityQueue) (limit : Z)
  : list HistoryEntry :=
  slice_last (_history self) limit.

(** [clear_completed]: the keys to remove are collected first, then
    deleted one by one. *)
Definition clear_completed (self : PriorityQueue) (older_than_days : Z)
    (now : Z) : Z * PriorityQueue :=
  let cutoff := now - days older_than_days in
  let to_remove :=
    omap
      (fun e : string * Task =>
         let '(task_id, task) := e in
         if bool_decide (status task = COMPLETED) then
           match completed_at task with
           | Some c =>
               if iso_truthy c then
                 match fromisoformat c with
                 | Some completed =>
                     if completed <? cutoff then Some task_id else None
                 | None => None
                 end
               else None
           | None => None
           end
         else None)
      (_tasks self) in
  let tasks := foldl pop (_tasks self) to_remove in
  if list_truthy to_remove then
    (Z.of_nat (length to_remove),
     mkPriorityQueue tasks (_agents self)
       (_log_action (_history self) now "CLEAR_COMPLETED" "batch"))
  else
    (Z.of_nat (length to_remove),
     mkPriorityQueue tasks (_agents self) (_history self)).


(** * Notions used in the statements and proofs

    Nothing from here on is part of the program. *)

(** ** The mutating operations, as one type

    A call of one of the nine mutating methods, with its arguments. *)
Inductive operation :=
  | Add (task_id : string) (title' description' : string)
      (priority' : TaskPriority) (category' : TaskCategory)
      (assigned_agent' created_by' : string) (deadline' : option isostring)
      (dependencies' tags' : option (list string)) (estimated_duration' : Z)
  | Update (task_id : string) (title' description' : option string)
      (priority' : option TaskPriority) (category' : option TaskCategory)
      (assigned_agent' : option string) (deadline' : option isostring)
      (tags' : option (list string)) (estimated_duration' : option Z)
      (notes' : option string)
  | Delete (task_id : string)
  | Start (task_id : string) (agent : option string)
  | Complete (task_id : string) (notes' : string)
  | Fail (task_id : string) (reason : string)
  | Cancel (task_id : string) (reason : string)
  | AddDependency (task_id depends_on : string)
  | RemoveDependency (task_id depends_on : string).

(** The queue after the call. *)
Definition run (op : operation) (self : PriorityQueue) (now : Z)
  : PriorityQueue :=
  match op with
  | Add task_id t d p c a cb dl deps tg e =>
      (add self task_id t d p c a cb dl deps tg e now).2
  | Update task_id t d p c a dl tg e n =>
      (update self task_id t d p c a dl tg e n now).2
  | Delete task_id => (delete self task_id now).2
  | Start task_id agent => (start self task_id agent now).2
  | Complete task_id notes' => (complete self task_id notes' now).2
  | Fail task_id reason => (fail self task_id reason now).2
  | Cancel task_id reason => (cancel self task_id reason now).2
  | AddDependency task_id depends_on =>
      (add_dependency self task_id depends_on now).2
  | RemoveDependency task_id depends_on =>
      (remove_dependency self task_id depends_on).2
  end.

(** The task the call is about (for [add], the task it creates). *)
Definition subject (op : operation) : string :=
  match op with
  | Add task_id _ _ _ _ _ _ _ _ _ _
  | Update task_id _ _ _ _ _ _ _ _ _
  | Delete task_id
  | Start task_id _
  | Complete task_id _
  | Fail task_id _
  | Cancel task_id _
  | AddDependency task_id _
  | RemoveDependency task_id _ => task_id
  end.


(** The call moves the task under key [k] from BLOCKED to PENDING. *)
Definition unblocks (op : operation) (self : PriorityQueue) (now : Z)
    (k : string) : Prop :=
  status <$> get (_tasks self) k = Some BLOCKED ∧
  status <$> get (_tasks (run op self now)) k = Some PENDING.

(** No BLOCKED task is stale: each one has a dependency that is missing
    or not COMPLETED, so that a pass would leave it BLOCKED. *)
Definition no_stale_blocked (tasks : list (string * Task)) : bool :=
  forallb
    (fun e =>
       implb (bool_decide (status e.2 = BLOCKED))
         (list_truthy (dependencies e.2) && negb (all_deps_complete tasks e.2)))
    tasks.

(** A well-formed task dictionary: no key twice, no stale BLOCKED task. *)
Definition well_formed (tasks : list (string * Task)) : Prop :=
  NoDup tasks.*1 ∧ no_stale_blocked tasks = true.

(** What a call of [dfs] that is not cut off delivers: the set only
    grows and never takes in [task_id]; an answer [true] comes with a
    path; after an answer [false] the node is visited and every node
    visited by the call has all its dependencies visited. *)

(** ** The score as the specification words it

    The base value, then the multipliers that apply, in the order in which
    they are applied: at most one deadline bracket (the first bracket
    whose bound is strictly above [hours_until]), the age factors, the
    blocked penalty. *)

Definition hours (delta : Z) : Q := (total_seconds delta / 3600)%Q.







(** ** The pass, the dependency graph, the order of the scores *)

(** What the pass reads of the dictionary: which identifiers name a
    COMPLETED task. *)
Definition completed (tasks : list (string * Task)) (k : string) : bool :=
  match get tasks k with
  | Some dep_task => bool_decide (status dep_task = COMPLETED)
  | None => false
  end.

(** Same keys in the same order, and the same tasks COMPLETED. *)
Definition same_completed (e1 e2 : string * Task) : Prop :=
  e1.1 = e2.1 ∧ (status e1.2 = COMPLETED ↔ status e2.2 = COMPLETED).

(** [x] depends on [y]: an existing dependency edge of the task set. *)
Definition edge (tasks : list (string * Task)) (x y : string) : Prop :=
  ∃ task, get tasks x = Some task ∧ y ∈ dependencies task.

(** The number of entries whose key the search has not visited yet. *)
Definition unvisited (tasks : list (string * Task)) (visited : gset string)
  : nat :=
  length (filter (fun e => e.1 ∉ visited) tasks).

(** The deadline brackets and the shape of a score: the priority, the
    bracket applied (if any), whether each age factor applies and whether
    the blocked penalty applies. *)
Inductive bracket := overdue | within_1h | within_4h | within_24h | within_72h.

#[global] Instance bracket_eq_dec : EqDecision bracket.
Proof. solve_decision. Defined.

Definition bracket_factor (b : bracket) : float :=
  match b with
  | overdue => 0.1
  | within_1h => 0.3
  | within_4h => 0.5
  | within_24h => 0.7
  | within_72h => 0.9
  end%float.

Definition shape_score
    (s : TaskPriority * option bracket * bool * bool * bool) : float :=
  let '(p, b, aged, old, blocked) := s in
  let score := float_of_int (value p) in
  let score :=
    match b with
    | Some b => (score * bracket_factor b)%float
    | None => score
    end in
  let score := if aged then (score * 0.95)%float else score in
  let score := if old then (score * 0.90)%float else score in
  if blocked then (score * float_of_int 10)%float else score.

Definition bracket_of (hours_until : Q) : option bracket :=
  if Qltb hours_until 0 then Some overdue
  else if Qltb hours_until 1 then Some within_1h
  else if Qltb hours_until 4 then Some within_4h
  else if Qltb hours_until 24 then Some within_24h
  else if Qltb hours_until 72 then Some within_72h
  else None.

Definition shape_of (t : Task) (now : Z)
  : TaskPriority * option bracket * bool * bool * bool :=
  (priority t,
   match deadline t with
   | Some (Instant deadline_dt) => bracket_of (hours (deadline_dt - now))
   | _ => None
   end,
   match created_at t with
   | Instant created => Qltb 24 (hours (now - created))
   | Garbled _ => false
   end,
   match created_at t with
   | Instant created => Qltb 72 (hours (now - created))
   | Garbled _ => false
   end,
   bool_decide (status t = BLOCKED)).

Definition all_shapes
  : list (TaskPriority * option bracket * bool * bool * bool) :=
  p ← [CRITICAL; HIGH; MEDIUM; LOW; BACKLOG];
  b ← [None; Some overdue; Some within_1h; Some within_4h; Some within_24h;
       Some within_72h];
  aged ← [false; true];
  old ← [false; true];
  blocked ← [false; true];
  [(p, b, aged, old, blocked)].

(** The position of a score among all scores: how many of them are
    strictly smaller. *)
Definition all_scores : list float := map shape_score all_shapes.

Definition score_rank (scores : list float) (x : float) : nat :=
  length (List.filter (fun y => PrimFloat.ltb y x) scores).

Definition rank (s : TaskPriority * option bracket * bool * bool * bool)
  : nat :=
  score_rank all_scores (shape_score s).

(** Every score paired with its position. *)
Definition rank_table : list (float * nat) :=
  map (fun x => (x, score_rank all_scores x)) all_scores.

(** The agent filter of [get_next]: an agent that is [None] or the empty
    string asks for no filtering. *)
Definition wanted_by (agent : option string) (task : Task) : bool :=
  match agent with
  | Some a =>
      if str_truthy a
      then bool_decide (assigned_agent task = "ANY" ∨ assigned_agent task = a)
      else true
  | None => true
  end.

(** The tasks [get_next] chooses among, in dictionary order: PENDING after
    the pass and wanted by the agent. *)
Definition candidates (self : PriorityQueue) (agent : option string)
  : list Task :=
  filter (fun task => wanted_by agent task = true ∧ status task = PENDING)
    (values (_tasks (_update_blocked_status self))).

(** A task as [Task(id=.., title=.., status=.., assigned_agent=..,
    dependencies=..)] builds it, the other fields at their defaults. *)
Definition make_task (id' : string) (status' : TaskStatus)
    (assigned_agent' : string) (dependencies' : list string) (now : Z)
  : Task :=
  mkTask id' id' "" status' MEDIUM OTHER assigned_agent' "" (isoformat now)
    None dependencies' [] 30 None None None "".

Definition dfs_post (tasks : list (string * Task)) (task_id : string)
    (current : string) (visited : gset string)
    (found : bool) (visited' : gset string) : Prop :=
  visited ⊆ visited' ∧ (task_id ∉ visited') ∧
  (found = true → rtc (edge tasks) current task_id) ∧
  (found = false →
     current ∈ visited' ∧
     ∀ x y, x ∈ visited' → x ∉ visited → edge tasks x y → y ∈ visited').

Definition loop_post (tasks : list (string * Task)) (task_id : string)
    (deps : list string) (visited : gset string)
    (found : bool) (visited' : gset string) : Prop :=
  visited ⊆ visited' ∧ (task_id ∉ visited') ∧
  (found = true → ∃ dep, dep ∈ deps ∧ rtc (edge tasks) dep task_id) ∧
  (found = false →
     (∀ dep, dep ∈ deps → dep ∈ visited') ∧
     ∀ x y, x ∈ visited' → x ∉ visited → edge tasks x y → y ∈ visited').

(** ** A sample queue for the examples

    Three tasks added to a new queue: "dep", then "main" (HIGH, for
    "ATLAS") which depends on "dep", then "solo" (LOW, for "FORGE"). *)
Definition demo_queue : PriorityQueue :=
  let q := new_queue 0 in
  let q := (add q "dep" "Dep" "" MEDIUM OTHER "ANY" "" None None None 30 1).2 in
  let q := (add q "main" "Main" "" HIGH OTHER "ATLAS" "" None (Some ["dep"])
              None 30 2).2 in
  (add q "solo" "Solo" "" LOW OTHER "FORGE" "" None None None 30 3).2.

(** The status the blocked/pending rule gives a task in a task set: a
    terminal or running task keeps its status; any other task is PENDING
    when every dependency it lists names a COMPLETED task (in particular
    when it lists none) and BLOCKED otherwise. *)
Definition recomputed_status (tasks : list (string * Task)) (task : Task)
  : TaskStatus :=
  if bool_decide (status task ∈ [COMPLETED; CANCELLED; FAILED; IN_PROGRESS])
  then status task
  else if forallb (completed tasks) (dependencies task) then PENDING
  else BLOCKED.


(** Every entry is filed under the identifier of its task. *)
Definition keyed_by_id (tasks : list (string * Task)) : Prop :=
  Forall (fun e => e.1 = id e.2) tasks.

(** The filters of [get_queue], as one test: the status, category and
    priority filters apply when given, the agent filter when a non-empty
    agent is given. *)
Definition selected (status' : option TaskStatus) (agent : option string)
    (category' : option TaskCategory) (priority' : option TaskPriority)
    (t : Task) : bool :=
  match status' with Some s => bool_decide (status t = s) | None => true end
  && match agent with
     | Some a =>
         if str_truthy a
         then bool_decide (assigned_agent t = a ∨ assigned_agent t = "ANY")
         else true
     | None => true
     end
  && match category' with
     | Some c => bool_decide (category t = c)
     | None => true
     end
  && match priority' with
     | Some p => bool_decide (priority t = p)
     | None => true
     end.

(** Ascending scores at the instant [now]: no element scores strictly
    less than one before it. *)
Definition ascending (now : Z) (l : list Task) : Prop :=
  StronglySorted
    (fun a b =>
       PrimFloat.ltb (calculate_score b now) (calculate_score a now) = false)
    l.

(** The boolean a mutating call returns ([add] returns the identifier and
    cannot fail), and the action it is logged under ([remove_dependency]
    is never logged). *)
Definition outcome (op : operation) (self : PriorityQueue) (now : Z) : bool :=
  match op with
  | Add _ _ _ _ _ _ _ _ _ _ _ => true
  | Update task_id t d p c a dl tg e n =>
      (update self task_id t d p c a dl tg e n now).1
  | Delete task_id => (delete self task_id now).1
  | Start task_id agent => (start self task_id agent now).1
  | Complete task_id notes' => (complete self task_id notes' now).1
  | Fail task_id reason => (fail self task_id reason now).1
  | Cancel task_id reason => (cancel self task_id reason now).1
  | AddDependency task_id depends_on =>
      (add_dependency self task_id depends_on now).1
  | RemoveDependency task_id depends_on =>
      (remove_dependency self task_id depends_on).1
  end.

Definition action_name (op : operation) : string :=
  match op with
  | Add _ _ _ _ _ _ _ _ _ _ _ => "ADD"
  | Update _ _ _ _ _ _ _ _ _ _ => "UPDATE"
  | Delete _ => "DELETE"
  | Start _ _ => "START"
  | Complete _ _ => "COMPLETE"
  | Fail _ _ => "FAIL"
  | Cancel _ _ => "CANCEL"
  | AddDependency _ _ => "ADD_DEPENDENCY"
  | RemoveDependency _ _ => ""
  end.

Definition is_remove_dependency (op : operation) : bool :=
  match op with
  | RemoveDependency _ _ => true
  | _ => false
  end.

(** A run of calls, each with its clock reading, from a given queue. *)
Definition run_all (calls : list (operation * Z)) (self : PriorityQueue)
  : PriorityQueue :=
  foldl (fun q call => run call.1 q call.2) self calls.

(** A task that [clear_completed] removes: COMPLETED, with a completion
    time that parses and lies before the cutoff. *)
Definition expired (cutoff : Z) (task : Task) : bool :=
  bool_decide (status task = COMPLETED)
  && match completed_at task with
     | Some (Instant completed) => completed <? cutoff
     | _ => false
     end.

(** The sample queue after "dep" was started at 4 and completed at 5. *)
Definition demo_queue_done : PriorityQueue :=
  (complete (start demo_queue "dep" None 4).2 "dep" "" 5).2.

(** The agent registry holds the six roster agents and nobody else, each
    under its own name with its default capabilities and capacity. *)
Definition roster_intact (agents : gmap string AgentStatus) : Prop :=
  ∀ a,
    match agents !! a with
    | Some st =>
        a ∈ ["FORGE"; "ATLAS"; "CLIO"; "NEXUS"; "BOLT"; "PORTER"]
        ∧ name st = a
        ∧ capabilities st = _get_agent_capabilities a
        ∧ max_concurrent st = 1
    | None => a ∉ ["FORGE"; "ATLAS"; "CLIO"; "NEXUS"; "BOLT"; "PORTER"]
    end.
(** * Properties *)

(** ** The score function *)







(** C9: a BLOCKED task scores strictly more than five times the score of
    the identical task with status PENDING. *)
Theorem blocked_above_five_times_pending (t : Task) (now : Z) :
  status t = BLOCKED →
  PrimFloat.ltb
    (float_of_int 5 * calculate_score (set_status PENDING t) now)%float
    (calculate_score t now) = true.
Proof.
  intros Hs. unfold calculate_score. rewrite Hs. simpl.
  destruct (deadline t) as [[d|raw]|]; simpl;
    try (destruct (str_truthy raw); simpl);
    destruct (created_at t) as [created|raw']; simpl;
    repeat match goal with
           | |- context [Qltb ?a ?b] => destruct (Qltb a b)
           end;
    destruct (priority t); reflexivity.
Qed.

Lemma blocked_above_five_times_pending_witness :
  PrimFloat.ltb
    (float_of_int 5 *
     calculate_score
       (mkTask "b1" "Blocked" "" PENDING HIGH OTHER "ANY" ""
          (Instant 0) None ["n1"] [] 30 None None None "") 0)%float
    (calculate_score
       (mkTask "b1" "Blocked" "" BLOCKED HIGH OTHER "ANY" ""
          (Instant 0) None ["n1"] [] 30 None None None "") 0) = true.
Proof.
  apply (blocked_above_five_times_pending
           (mkTask "b1" "Blocked" "" BLOCKED HIGH OTHER "ANY" ""
              (Instant 0) None ["n1"] [] 30 None None None "") 0).
  reflexivity.
Defined.

(** ** The ordered dictionary *)

Section dict.
Context {V : Type}.
Implicit Types (d : list (string * V)) (k : string) (v : V).

Lemma get_setitem_eq d k v : get (setitem d k v) k = Some v.
Proof.
  induction d as [|[k' v'] d IH]; simpl.
  - by rewrite decide_True.
  - destruct (decide (k' = k)) as [->|Hne]; simpl.
    + by rewrite decide_True.
    + by rewrite decide_False.
Qed.

Lemma get_setitem_ne d k k' v : k ≠ k' → get (setitem d k v) k' = get d k'.
Proof.
  intros Hne. induction d as [|[k0 v0] d IH]; simpl.
  - by rewrite decide_False.
  - destruct (decide (k0 = k)) as [->|Hne0]; simpl.
    + by rewrite !decide_False.
    + by rewrite IH.
Qed.

Lemma get_pop_ne d k k' : k ≠ k' → get (pop d k) k' = get d k'.
Proof.
  intros Hne. induction d as [|[k0 v0] d IH]; simpl; [done|].
  destruct (decide (k0 = k)) as [->|Hne0]; simpl.
  - by rewrite decide_False.
  - by rewrite IH.
Qed.

Lemma get_Some_elem_of d k v : get d k = Some v → (k, v) ∈ d.
Proof.
  induction d as [|[k0 v0] d IH]; simpl; [done|].
  destruct (decide (k0 = k)) as [->|Hne].
  - intros [= ->]. left.
  - intros H. right. by apply IH.
Qed.
End dict.

(** ** [cancel] and [complete] *)

(** C4: cancelling a known task returns true and leaves it CANCELLED, and
    no agent record changes: the release branch tests the status after it
    has been overwritten. *)
Theorem cancel_never_releases_agent
    (self : PriorityQueue) (task_id reason : string) (now : Z) :
  is_Some (get (_tasks self) task_id) →
  (cancel self task_id reason now).1 = true ∧
  status <$> get (_tasks (cancel self task_id reason now).2) task_id
    = Some CANCELLED ∧
  _agents (cancel self task_id reason now).2 = _agents self.
Proof.
  intros [task Hget]. unfold cancel. rewrite Hget. simpl.
  split; [done|]. split.
  - rewrite get_setitem_eq. by destruct (str_truthy reason).
  - destruct (str_truthy reason); simpl;
      by destruct (_agents self !! assigned_agent task).
Qed.

Lemma cancel_never_releases_agent_witness :
  _agents
    (cancel
       (start (add (new_queue 0) "t1" "Cancel Test" "" MEDIUM OTHER "ANY" ""
                 None None None 30 1).2 "t1" (Some "FORGE") 2).2
       "t1" "No longer needed" 3).2 !! "FORGE" =
  Some (mkAgentStatus "FORGE" false (Some "t1") (Instant 0) 0
          (_get_agent_capabilities "FORGE") 1).
Proof.
  rewrite (proj2 (proj2
    (cancel_never_releases_agent
       (start (add (new_queue 0) "t1" "Cancel Test" "" MEDIUM OTHER "ANY"
                 "" None None None 30 1).2 "t1" (Some "FORGE") 2).2
       "t1" "No longer needed" 3
       (ex_intro _ _ eq_refl)))).
  reflexivity.
Defined.

(** C10: completing a known task whose assigned agent is registered marks
    that agent available, clears its current task and adds one to its
    completed counter, whatever the task's status was and whatever task the
    agent was recorded as working on. *)
Theorem complete_always_releases_agent
    (self : PriorityQueue) (task_id notes' : string) (now : Z)
    (task : Task) (agent : AgentStatus) :
  get (_tasks self) task_id = Some task →
  _agents self !! assigned_agent task = Some agent →
  (complete self task_id notes' now).1 = true ∧
  _agents (complete self task_id notes' now).2 !! assigned_agent task =
    Some (mkAgentStatus (name agent) true None (isoformat now)
            (completed_today agent + 1) (capabilities agent)
            (max_concurrent agent)).
Proof.
  intros Hget Hagent. unfold complete. rewrite Hget. simpl.
  split; [done|].
  destruct (str_truthy notes'), (started_at task) as [[s|raw]|] eqn:Hst; simpl;
    rewrite ?Hst; simpl;
    try (destruct (str_truthy raw); simpl);
    rewrite Hagent; simpl; by rewrite lookup_insert_eq.
Qed.

Lemma complete_always_releases_agent_witness :
  _agents
    (complete
       (mkPriorityQueue
          [("t1", make_task "t1" PENDING "FORGE" [] 0);
           ("t2", make_task "t2" IN_PROGRESS "FORGE" [] 0)]
          (<["FORGE" :=
               mkAgentStatus "FORGE" false (Some "t2") (Instant 0) 4 [] 1]> ∅)
          [])
       "t1" "" 5).2 !! "FORGE" =
  Some (mkAgentStatus "FORGE" true None (Instant 5) 5 [] 1).
Proof.
  apply (complete_always_releases_agent
           (mkPriorityQueue
              [("t1", make_task "t1" PENDING "FORGE" [] 0);
               ("t2", make_task "t2" IN_PROGRESS "FORGE" [] 0)]
              (<["FORGE" :=
                   mkAgentStatus "FORGE" false (Some "t2") (Instant 0) 4 [] 1]> ∅)
              [])
           "t1" "" 5
           (make_task "t1" PENDING "FORGE" [] 0)
           (mkAgentStatus "FORGE" false (Some "t2") (Instant 0) 4 [] 1)).
  - reflexivity.
  - reflexivity.
Defined.

(** ** The blocked/pending pass *)

Lemma same_completed_refl (d : list (string * Task)) :
  Forall2 same_completed d d.
Proof. induction d; constructor; [by split|done]. Qed.

Lemma completed_Forall2 (d1 d2 : list (string * Task)) (k : string) :
  Forall2 same_completed d1 d2 → completed d1 k = completed d2 k.
Proof.
  unfold completed.
  induction 1 as [|[k1 t1] [k2 t2] d1 d2 [Hk Hs] _ IH]; simpl in *; [done|].
  subst k2. destruct (decide (k1 = k)); [|done].
  apply bool_decide_ext, Hs.
Qed.

Lemma all_deps_complete_ext (d1 d2 : list (string * Task)) (task : Task) :
  (∀ k, completed d1 k = completed d2 k) →
  all_deps_complete d1 task = all_deps_complete d2 task.
Proof.
  intros H. unfold all_deps_complete.
  induction (dependencies task) as [|dep deps IH]; simpl; [done|].
  f_equal; [apply (H dep)|done].
Qed.

Lemma refresh_status_ext (d1 d2 : list (string * Task)) (task : Task) :
  (∀ k, completed d1 k = completed d2 k) →
  refresh_status d1 task = refresh_status d2 task.
Proof.
  intros H. unfold refresh_status.
  by rewrite (all_deps_complete_ext d1 d2 task H).
Qed.

Lemma refresh_status_completed (d : list (string * Task)) (task : Task) :
  status (refresh_status d task) = COMPLETED ↔ status task = COMPLETED.
Proof.
  unfold refresh_status.
  destruct (status task) eqn:Hs; simpl; rewrite ?Hs;
    destruct (list_truthy (dependencies task)),
             (all_deps_complete d task); simpl; rewrite ?Hs; done.
Qed.

Lemma refresh_status_dependencies (d : list (string * Task)) (task : Task) :
  dependencies (refresh_status d task) = dependencies task.
Proof.
  unfold refresh_status.
  repeat (case_bool_decide || case_match); done.
Qed.

(** The pass never changes which tasks are COMPLETED, so each task is
    refreshed as if against the dictionary the pass started from. *)
Lemma update_loop_map (done todo : list (string * Task)) :
  update_loop done todo =
  done ++ map (fun e => (e.1, refresh_status (done ++ todo) e.2)) todo.
Proof.
  revert done. induction todo as [|[k t] rest IH]; intros done; simpl.
  - by rewrite app_nil_r.
  - rewrite IH, <- app_assoc. simpl. f_equal. f_equal.
    apply map_ext. intros [k' t']. simpl. f_equal.
    apply refresh_status_ext. intros k0.
    apply completed_Forall2. rewrite <- app_assoc. simpl.
    apply Forall2_app; [apply same_completed_refl|].
    constructor; [|apply same_completed_refl].
    split; [done|]. simpl. apply refresh_status_completed.
Qed.

Lemma update_blocked_map (tasks : list (string * Task)) :
  update_blocked tasks =
  map (fun e => (e.1, refresh_status tasks e.2)) tasks.
Proof. unfold update_blocked. by rewrite update_loop_map. Qed.

Lemma get_map_values {V : Type} (f : V → V) (d : list (string * V)) (k : string) :
  get (map (fun e => (e.1, f e.2)) d) k = f <$> get d k.
Proof.
  induction d as [|[k0 v0] d IH]; simpl; [done|].
  by destruct (decide (k0 = k)).
Qed.

Lemma get_update_blocked (tasks : list (string * Task)) (k : string) :
  get (update_blocked tasks) k = refresh_status tasks <$> get tasks k.
Proof. rewrite update_blocked_map. apply get_map_values. Qed.

Lemma completed_update_blocked (tasks : list (string * Task)) (k : string) :
  completed (update_blocked tasks) k = completed tasks k.
Proof.
  unfold completed. rewrite get_update_blocked.
  destruct (get tasks k) as [t|]; simpl; [|done].
  apply bool_decide_ext, refresh_status_completed.
Qed.

Lemma refresh_status_idemp (d : list (string * Task)) (task : Task) :
  refresh_status d (refresh_status d task) = refresh_status d task.
Proof.
  unfold refresh_status at 2.
  destruct (status task) eqn:Hs; simpl;
    destruct (list_truthy (dependencies task)) eqn:Hd; simpl;
    try destruct (all_deps_complete d task) eqn:Hc; simpl;
    unfold refresh_status, all_deps_complete in *; simpl;
    rewrite ?Hs, ?Hd, ?Hc; simpl; rewrite ?Hs; done.
Qed.

(** C6: a second pass right after a pass changes nothing. *)
Theorem update_blocked_status_idempotent (self : PriorityQueue) :
  _update_blocked_status (_update_blocked_status self) =
  _update_blocked_status self.
Proof.
  unfold _update_blocked_status. simpl. f_equal.
  rewrite (update_blocked_map (update_blocked (_tasks self))).
  erewrite map_ext;
    [|intros e;
      rewrite (refresh_status_ext _ (_tasks self))
        by apply completed_update_blocked;
      reflexivity].
  rewrite (update_blocked_map (_tasks self)), map_map. simpl.
  apply map_ext. intros [k t]. simpl. f_equal.
  apply refresh_status_idemp.
Qed.

Lemma all_deps_complete_false (tasks : list (string * Task)) (task : Task)
    (dep : string) :
  dep ∈ dependencies task → completed tasks dep = false →
  all_deps_complete tasks task = false.
Proof.
  unfold all_deps_complete, completed.
  induction 1 as [dep deps|dep dep' deps _ IH]; simpl; intros Hc.
  - by rewrite Hc.
  - rewrite IH by done. apply andb_false_r.
Qed.

Lemma refresh_status_dangling (tasks : list (string * Task)) (task : Task)
    (dep : string) :
  status task ∉ [COMPLETED; CANCELLED; FAILED; IN_PROGRESS] →
  dep ∈ dependencies task →
  get tasks dep = None →
  refresh_status tasks task = set_status BLOCKED task.
Proof.
  intros Hs Hdep Hnone. unfold refresh_status.
  rewrite bool_decide_false by done.
  rewrite (all_deps_complete_false tasks task dep Hdep)
    by (unfold completed; by rewrite Hnone).
  by destruct Hdep.
Qed.

(** C7: a task that is neither terminal nor in progress and lists a
    dependency absent from the task set is BLOCKED after every pass, however
    many passes run; the missing identifier never counts as complete. *)
Theorem dangling_dependency_stays_blocked
    (self : PriorityQueue) (task_id dep : string) (task : Task) (n : nat) :
  get (_tasks self) task_id = Some task →
  status task ∉ [COMPLETED; CANCELLED; FAILED; IN_PROGRESS] →
  dep ∈ dependencies task →
  get (_tasks self) dep = None →
  get (_tasks (Nat.iter (S n) _update_blocked_status self)) task_id =
    Some (set_status BLOCKED task) ∧
  get (_tasks (Nat.iter (S n) _update_blocked_status self)) dep = None.
Proof.
  intros Hget Hs Hdep Hnone.
  induction n as [|n [IHt IHd]].
  - simpl. rewrite !get_update_blocked, Hget, Hnone. simpl.
    by rewrite (refresh_status_dangling _ _ dep).
  - change (Nat.iter (S (S n)) _update_blocked_status self)
      with (_update_blocked_status (Nat.iter (S n) _update_blocked_status self)).
    remember (Nat.iter (S n) _update_blocked_status self) as q eqn:Hq.
    simpl. rewrite !get_update_blocked, IHt, IHd. simpl.
    rewrite (refresh_status_dangling _ _ dep); try done.
    compute_done.
Qed.

Lemma dangling_dependency_stays_blocked_witness :
  get (_tasks (Nat.iter 3 _update_blocked_status
                 (delete
                    (add (add (new_queue 0) "dep" "Dep" "" MEDIUM OTHER "ANY" ""
                            None None None 30 1).2
                       "main" "Main" "" MEDIUM OTHER "ANY" "" None
                       (Some ["dep"]) None 30 2).2
                    "dep" 3).2))
    "main" =
  Some (set_status BLOCKED
          (mkTask "main" "Main" "" BLOCKED MEDIUM OTHER "ANY" "" (Instant 2)
             None ["dep"] [] 30 None None None "")).
Proof.
  apply (dangling_dependency_stays_blocked
           (delete
              (add (add (new_queue 0) "dep" "Dep" "" MEDIUM OTHER "ANY" ""
                      None None None 30 1).2
                 "main" "Main" "" MEDIUM OTHER "ANY" "" None
                 (Some ["dep"]) None 30 2).2
              "dep" 3).2
           "main" "dep"
           (mkTask "main" "Main" "" BLOCKED MEDIUM OTHER "ANY" "" (Instant 2)
              None ["dep"] [] 30 None None None "")
           2).
  - reflexivity.
  - compute_done.
  - compute_done.
  - reflexivity.
Defined.

(** ** Cycle detection *)

Lemma unvisited_le_length (tasks : list (string * Task)) (visited : gset string) :
  (unvisited tasks visited <= length tasks)%nat.
Proof. apply length_filter. Qed.

Lemma unvisited_mono (tasks : list (string * Task)) (v1 v2 : gset string) :
  v1 ⊆ v2 → (unvisited tasks v2 <= unvisited tasks v1)%nat.
Proof.
  intros Hsub. unfold unvisited.
  induction tasks as [|[k t] tasks IH]; simpl; [done|].
  rewrite !filter_cons. simpl.
  destruct (decide (k ∉ v2)), (decide (k ∉ v1)); simpl; try lia.
  set_solver.
Qed.

Lemma unvisited_visit (tasks : list (string * Task)) (visited : gset string)
    (k : string) (task : Task) :
  get tasks k = Some task → k ∉ visited →
  (unvisited tasks (visited ∪ {[k]}) < unvisited tasks visited)%nat.
Proof.
  intros Hget Hk. unfold unvisited.
  induction tasks as [|[k0 t0] tasks IH]; simpl in *; [done|].
  rewrite !filter_cons. simpl.
  destruct (decide (k0 = k)) as [->|Hne].
  - rewrite decide_False by set_solver. rewrite decide_True by done. simpl.
    apply Nat.lt_succ_r.
    apply (unvisited_mono tasks visited (visited ∪ {[k]})). set_solver.
  - specialize (IH Hget).
    destruct (decide (k0 ∉ visited ∪ {[k]})), (decide (k0 ∉ visited));
      simpl; try lia.
    set_solver.
Qed.

Section dfs.
Variables (tasks : list (string * Task)) (task_id : string).

Lemma dfs_loop_spec (depth : nat) :
  (∀ current visited,
      (unvisited tasks visited < depth)%nat → task_id ∉ visited →
      ∃ found visited',
        dfs depth tasks task_id current visited = Some (found, visited') ∧
        dfs_post tasks task_id current visited found visited') →
  ∀ deps visited,
    (unvisited tasks visited < depth)%nat → task_id ∉ visited →
    ∃ found visited',
      dfs_loop (dfs depth tasks task_id) deps visited
        = Some (found, visited') ∧
      loop_post tasks task_id deps visited found visited'.
Proof.
  intros Hcall deps.
  induction deps as [|dep deps IH]; intros visited Hfuel Hnot; simpl.
  - exists false, visited. split; [done|].
    repeat split; try done. intros dep Hin. by apply elem_of_nil in Hin.
  - destruct (Hcall dep visited Hfuel Hnot)
      as (found & v1 & -> & Hsub & Hnot1 & Htrue & Hfalse).
    destruct found.
    + exists true, v1. split; [done|].
      repeat split; try done.
      intros _. exists dep. split; [left|by apply Htrue].
    + destruct (Hfalse eq_refl) as [Hdep Hclosed].
      destruct (IH v1) as (found & v2 & -> & Hsub2 & Hnot2 & Htrue2 & Hfalse2);
        [|done|].
      { eapply Nat.le_lt_trans; [by apply unvisited_mono|done]. }
      exists found, v2. split; [done|].
      split; [by etrans|]. split; [done|]. split.
      * intros Hf. destruct (Htrue2 Hf) as (d & Hd & Hpath).
        exists d. split; [by right|done].
      * intros Hf. destruct (Hfalse2 Hf) as [Hdeps Hclosed2]. split.
        -- intros d Hd. apply elem_of_cons in Hd as [->|Hd]; [by apply Hsub2|].
           by apply Hdeps.
        -- intros x y Hx Hnx Hedge.
           destruct (decide (x ∈ v1)) as [Hx1|Hx1].
           ++ apply Hsub2. by apply (Hclosed x y).
           ++ by apply (Hclosed2 x y).
Qed.

Lemma dfs_spec (depth : nat) (current : string) (visited : gset string) :
  (unvisited tasks visited < depth)%nat → task_id ∉ visited →
  ∃ found visited',
    dfs depth tasks task_id current visited = Some (found, visited') ∧
    dfs_post tasks task_id current visited found visited'.
Proof.
  revert current visited.
  induction depth as [|depth IH]; intros current visited Hfuel Hnot;
    [lia|].
  simpl.
  destruct (decide (current = task_id)) as [->|Hne].
  { exists true, visited. split; [done|]. by repeat split. }
  destruct (decide (current ∈ visited)) as [Hin|Hnin].
  { exists false, visited. split; [done|]. by repeat split. }
  destruct (get tasks current) as [task|] eqn:Hget.
  - destruct (dfs_loop_spec depth IH (dependencies task)
                (visited ∪ {[current]}))
      as (found & v' & -> & Hsub & Hnot' & Htrue & Hfalse).
    { pose proof (unvisited_visit tasks visited current task Hget Hnin). lia. }
    { rewrite elem_of_union, elem_of_singleton. by intros [?|?]. }
    exists found, v'. split; [done|].
    split; [clear -Hsub; set_solver|]. split; [done|]. split.
    + intros Hf. destruct (Htrue Hf) as (dep & Hdep & Hpath).
      eapply rtc_l; [|exact Hpath]. by exists task.
    + intros Hf. destruct (Hfalse Hf) as [Hdeps Hclosed].
      split; [clear -Hsub; set_solver|].
      intros x y Hx Hnx Hedge.
      destruct (decide (x = current)) as [->|Hxc].
      * destruct Hedge as (task' & Hget' & Hy).
        rewrite Hget in Hget'. injection Hget' as <-. by apply Hdeps.
      * apply (Hclosed x y); [done| |done].
        rewrite elem_of_union, elem_of_singleton. by intros [?|?].
  - exists false, (visited ∪ {[current]}). split; [done|].
    split; [set_solver|]. split.
    { rewrite elem_of_union, elem_of_singleton. by intros [?|?]. }
    split; [done|].
    intros _. split; [set_solver|].
    intros x y Hx Hnx (task' & Hget' & _).
    apply elem_of_union in Hx as [Hx|Hx]; [done|].
    apply elem_of_singleton in Hx as ->. congruence.
Qed.
End dfs.

(** The depth allowed in [_would_create_cycle] is never exhausted. *)
Lemma dfs_depth_enough (tasks : list (string * Task)) (task_id new_dep : string) :
  is_Some (dfs (S (length tasks)) tasks task_id new_dep ∅).
Proof.
  destruct (dfs_spec tasks task_id (S (length tasks)) new_dep ∅)
    as (found & v & -> & _); [|set_solver|done].
  apply Nat.lt_succ_r, unvisited_le_length.
Qed.




(** ** The order of the scores *)

Lemma calculate_score_shape (t : Task) (now : Z) :
  calculate_score t now = shape_score (shape_of t now).
Proof.
  unfold calculate_score, shape_of, shape_score, bracket_of, hours.
  destruct (deadline t) as [[d|raw]|]; simpl;
    repeat match goal with
           | |- context [Qltb ?a ?b] => destruct (Qltb a b); simpl
           end;
    try (destruct (str_truthy raw); simpl);
    destruct (created_at t) as [c|raw']; simpl;
    repeat match goal with
           | |- context [Qltb ?a ?b] => destruct (Qltb a b); simpl
           end;
    destruct (bool_decide (status t = BLOCKED)); reflexivity.
Qed.

Lemma all_shapes_complete
    (s : TaskPriority * option bracket * bool * bool * bool) :
  s ∈ all_shapes.
Proof.
  destruct s as [[[[p b] aged] old] blocked].
  destruct p, b as [[]|], aged, old, blocked; compute_done.
Qed.

(** Checked by evaluating every pair of scores: on scores, the float
    comparison is the order of the ranks. *)
Lemma ltb_rank_table :
  forallb
    (fun p1 =>
       forallb
         (fun p2 => eqb (PrimFloat.ltb p1.1 p2.1) (p1.2 <? p2.2)%nat)
         rank_table)
    rank_table = true.
Proof. vm_compute. reflexivity. Qed.

Lemma rank_table_complete
    (s : TaskPriority * option bracket * bool * bool * bool) :
  In (shape_score s, rank s) rank_table.
Proof.
  unfold rank_table, rank, all_scores.
  apply (in_map (fun x => (x, score_rank (map shape_score all_shapes) x))).
  apply in_map, list_elem_of_In, all_shapes_complete.
Qed.

Lemma ltb_shape_score
    (s1 s2 : TaskPriority * option bracket * bool * bool * bool) :
  PrimFloat.ltb (shape_score s1) (shape_score s2) = (rank s1 <? rank s2)%nat.
Proof.
  pose proof ltb_rank_table as H.
  rewrite forallb_forall in H.
  specialize (H _ (rank_table_complete s1)).
  rewrite forallb_forall in H.
  specialize (H _ (rank_table_complete s2)). simpl in H.
  by apply eqb_prop in H.
Qed.

(** The rank of a task's score at the instant [now]. *)
Lemma ltb_calculate_score (t1 t2 : Task) (now : Z) :
  PrimFloat.ltb (calculate_score t1 now) (calculate_score t2 now) =
  (rank (shape_of t1 now) <? rank (shape_of t2 now))%nat.
Proof. rewrite !calculate_score_shape. apply ltb_shape_score. Qed.

(** ** Sorting by score *)

Section sort_by.
Context {A : Type} (key : A → float) (rk : A → nat).
Hypothesis key_rk :
  ∀ x y, PrimFloat.ltb (key x) (key y) = (rk x <? rk y)%nat.

Lemma sort_by_nil_inv (l : list A) : sort_by key l = [] → l = [].
Proof.
  destruct l as [|x l]; [done|]. simpl.
  destruct (sort_by key l) as [|y s]; simpl; [done|].
  by destruct (PrimFloat.ltb (key y) (key x)).
Qed.

Lemma insert_by_Permutation (x : A) (l : list A) : insert_by key x l ≡ₚ x :: l.
Proof.
  induction l as [|y l IH]; simpl; [done|].
  destruct (PrimFloat.ltb (key y) (key x)); [|done].
  rewrite IH. apply Permutation_swap.
Qed.

Lemma sort_by_Permutation (l : list A) : sort_by key l ≡ₚ l.
Proof.
  induction l as [|x l IH]; simpl; [done|].
  by rewrite insert_by_Permutation, IH.
Qed.

Lemma insert_by_sorted (x : A) (l : list A) :
  StronglySorted (fun a b => rk a <= rk b)%nat l →
  StronglySorted (fun a b => rk a <= rk b)%nat (insert_by key x l).
Proof.
  induction 1 as [|y l Hl IH Hy]; simpl.
  - repeat constructor.
  - rewrite key_rk.
    destruct (Nat.ltb_spec (rk y) (rk x)) as [Hlt|Hle].
    + constructor; [done|].
      rewrite insert_by_Permutation. constructor; [lia|done].
    + constructor; [by constructor|].
      constructor; [done|].
      eapply Forall_impl; [exact Hy|]. simpl. lia.
Qed.

(** The result is the input rearranged in ascending order of rank. *)
Lemma sort_by_sorted (l : list A) :
  StronglySorted (fun a b => rk a <= rk b)%nat (sort_by key l).
Proof.
  induction l as [|x l IH]; simpl; [constructor|].
  by apply insert_by_sorted.
Qed.

(** The head of the sorted list is the first element of least rank:
    everything before it in the input ranks strictly higher, everything
    after it at least as high. *)
Lemma head_sort_by (l : list A) (h : A) :
  head (sort_by key l) = Some h →
  ∃ l1 l2, l = l1 ++ h :: l2 ∧
           Forall (fun x => rk h < rk x)%nat l1 ∧
           Forall (fun x => rk h <= rk x)%nat l2.
Proof.
  revert h. induction l as [|x l IH]; intros h; simpl; [done|].
  destruct (sort_by key l) as [|y s] eqn:Hs; simpl.
  - intros [= <-]. apply sort_by_nil_inv in Hs as ->.
    exists [], []. by repeat split.
  - destruct (IH y eq_refl) as (l1 & l2 & -> & H1 & H2).
    rewrite key_rk.
    destruct (Nat.ltb_spec (rk y) (rk x)) as [Hlt|Hle]; simpl;
      intros [= ?]; subst h.
    + exists (x :: l1), l2. repeat split; [|done]. by constructor.
    + exists [], (l1 ++ y :: l2). repeat split; [done|].
      apply Forall_app. split; [|constructor].
      * eapply Forall_impl; [exact H1|]. simpl. lia.
      * done.
      * eapply Forall_impl; [exact H2|]. simpl. lia.
Qed.
End sort_by.

(** ** [get_next] *)

Lemma candidates_stages (self : PriorityQueue) (agent : option string) :
  candidates self agent =
  filter (fun task => wanted_by agent task = true)
    (filter (fun task => status task = PENDING)
       (values (_tasks (_update_blocked_status self)))).
Proof. unfold candidates. by rewrite list_filter_filter. Qed.

Lemma filter_all {A : Type} (P : A → Prop) `{!∀ x, Decision (P x)} (l : list A) :
  (∀ x, P x) → filter P l = l.
Proof.
  intros HP. induction l as [|x l IH]; [done|].
  by rewrite filter_cons_True, IH.
Qed.

Lemma filter_wanted_by (agent : option string) (l : list Task) :
  filter (fun task => wanted_by agent task = true) l =
  match agent with
  | Some a =>
      if str_truthy a then
        filter (fun task => assigned_agent task = "ANY" ∨ assigned_agent task = a) l
      else l
  | None => l
  end.
Proof.
  destruct agent as [a|]; simpl; [|by apply filter_all].
  destruct (str_truthy a); [|by apply filter_all].
  apply list_filter_iff. intros task. apply bool_decide_eq_true.
Qed.

(** What [get_next] computes, in terms of the candidates. *)
Lemma get_next_candidates (self : PriorityQueue) (agent : option string)
    (now : Z) :
  get_next self agent now =
  (head (sort_by (fun t => calculate_score t now) (candidates self agent)),
   _update_blocked_status self).
Proof.
  unfold get_next. rewrite candidates_stages, filter_wanted_by.
  destruct (filter (fun task => status task = PENDING)
              (values (_tasks (_update_blocked_status self))))
    as [|c cs] eqn:Hpending; simpl.
  { by destruct agent as [a|]; [destruct (str_truthy a)|]. }
  set (stage2 := match agent with
                 | Some a => if str_truthy a then _ else _
                 | None => _
                 end).
  destruct stage2 as [|c' cs'] eqn:Hstage; [done|]. simpl. done.
Qed.

(** C2, as the code has it: [get_next] runs the blocked/pending pass and
    chooses among the tasks that are then PENDING and, when a non-empty
    agent is given, assigned to that agent or to "ANY" (an empty agent
    string filters nothing, like no agent).  It returns none exactly when
    there is no such task, and otherwise a candidate of minimum score, the
    earliest one in dictionary order among those of minimum score.  Asked
    for "FORGE" it never returns a task assigned to "ATLAS". *)
Theorem get_next_selects_minimum
    (self : PriorityQueue) (agent : option string) (now : Z) :
  (get_next self agent now).2 = _update_blocked_status self ∧
  ((get_next self agent now).1 = None ↔ candidates self agent = []) ∧
  (∀ r, (get_next self agent now).1 = Some r →
     status r = PENDING ∧
     (∀ a, agent = Some a → a ≠ "" →
           assigned_agent r = "ANY" ∨ assigned_agent r = a) ∧
     (∀ c, c ∈ candidates self agent →
           PrimFloat.ltb (calculate_score c now) (calculate_score r now)
             = false) ∧
     ∃ l1 l2, candidates self agent = l1 ++ r :: l2 ∧
       ∀ c, c ∈ l1 →
            PrimFloat.ltb (calculate_score r now) (calculate_score c now)
              = true) ∧
  (agent = Some "FORGE" →
   ∀ r, (get_next self agent now).1 = Some r → assigned_agent r ≠ "ATLAS").
Proof.
  rewrite get_next_candidates. simpl.
  assert (Hsel : ∀ r,
    head (sort_by (fun t => calculate_score t now) (candidates self agent))
      = Some r →
    (wanted_by agent r = true ∧ status r = PENDING) ∧
    (∀ c, c ∈ candidates self agent →
          PrimFloat.ltb (calculate_score c now) (calculate_score r now)
            = false) ∧
    ∃ l1 l2, candidates self agent = l1 ++ r :: l2 ∧
      ∀ c, c ∈ l1 →
           PrimFloat.ltb (calculate_score r now) (calculate_score c now)
             = true).
  { intros r Hr.
    apply (head_sort_by _ (fun t => rank (shape_of t now))) in Hr
      as (l1 & l2 & Hsplit & H1 & H2);
      [|intros x y; apply ltb_calculate_score].
    rewrite Forall_forall in H1, H2.
    split; [|split].
    - assert (r ∈ candidates self agent) as Hin
        by (rewrite Hsplit, elem_of_app; right; left).
      unfold candidates in Hin. by apply list_elem_of_filter in Hin as [? _].
    - intros c Hc. rewrite ltb_calculate_score. apply Nat.ltb_ge.
      rewrite Hsplit, elem_of_app, elem_of_cons in Hc.
      destruct Hc as [Hc|[->|Hc]]; [apply Nat.lt_le_incl| |]; auto.
    - exists l1, l2. split; [done|]. intros c Hc.
      rewrite ltb_calculate_score. apply Nat.ltb_lt. auto. }
  split; [done|]. split; [|split].
  - split.
    + intros Hnone.
      destruct (sort_by _ (candidates self agent)) eqn:Hs; [|done].
      by apply sort_by_nil_inv in Hs.
    + by intros ->.
  - intros r Hr. destruct (Hsel r Hr) as ([Hw Hp] & Hmin & Hfirst).
    split; [done|]. split; [|done].
    intros a -> Ha. simpl in Hw.
    unfold str_truthy in Hw. rewrite bool_decide_false in Hw by done.
    simpl in Hw. by apply bool_decide_eq_true in Hw.
  - intros -> r Hr. destruct (Hsel r Hr) as ([Hw _] & _).
    simpl in Hw. apply bool_decide_eq_true in Hw.
    intros Hatlas. rewrite Hatlas in Hw. by destruct Hw.
Qed.

Lemma get_next_selects_minimum_witness :
  (get_next
     (add (add (new_queue 0) "t1" "Atlas Task" "" MEDIUM OTHER "ATLAS" ""
             None None None 30 1).2
        "t2" "Any Task" "" MEDIUM OTHER "ANY" "" None None None 30 2).2
     (Some "FORGE") 3).1 =
  Some (mkTask "t2" "Any Task" "" PENDING MEDIUM OTHER "ANY" "" (Instant 2)
          None [] [] 30 None None None "") ∧
  assigned_agent
    (mkTask "t2" "Any Task" "" PENDING MEDIUM OTHER "ANY" "" (Instant 2)
       None [] [] 30 None None None "") ≠ "ATLAS".
Proof.
  split; [reflexivity|].
  apply (proj2 (proj2 (proj2
           (get_next_selects_minimum
              (add (add (new_queue 0) "t1" "Atlas Task" "" MEDIUM OTHER
                      "ATLAS" "" None None None 30 1).2
                 "t2" "Any Task" "" MEDIUM OTHER "ANY" "" None None None
                 30 2).2
              (Some "FORGE") 3))) eq_refl).
  reflexivity.
Defined.

(** C2 as stated fails for the empty agent string: it is an agent
    argument, yet nothing is filtered and the task of another agent is
    returned. *)
Lemma get_next_empty_agent_not_filtered :
  ¬ (∀ (self : PriorityQueue) (a : string) (now : Z) (r : Task),
       (get_next self (Some a) now).1 = Some r →
       assigned_agent r = a ∨ assigned_agent r = "ANY").
Proof.
  intros H.
  specialize
    (H (add (new_queue 0) "t1" "Atlas Task" "" MEDIUM OTHER "ATLAS" ""
          None None None 30 1).2
       "" 2
       (mkTask "t1" "Atlas Task" "" PENDING MEDIUM OTHER "ATLAS" ""
          (Instant 1) None [] [] 30 None None None "")
       eq_refl).
  by destruct H.
Qed.

(** ** Which operations unblock other tasks *)

Lemma completed_setitem (tasks : list (string * Task)) (k d : string)
    (task : Task) :
  completed (setitem tasks k task) d =
  if decide (k = d) then bool_decide (status task = COMPLETED)
  else completed tasks d.
Proof.
  unfold completed. destruct (decide (k = d)) as [->|Hne].
  - by rewrite get_setitem_eq.
  - by rewrite get_setitem_ne.
Qed.

(** Reassigning a task without touching whether it is COMPLETED does not
    change what the pass reads. *)
Lemma completed_setitem_same (tasks : list (string * Task)) (k d : string)
    (old task : Task) :
  get tasks k = Some old →
  (status task = COMPLETED ↔ status old = COMPLETED) →
  completed (setitem tasks k task) d = completed tasks d.
Proof.
  intros Hget Hs. rewrite completed_setitem.
  destruct (decide (k = d)) as [<-|]; [|done].
  unfold completed. rewrite Hget. by apply bool_decide_ext.
Qed.

Lemma no_stale_blocked_get (tasks : list (string * Task)) (k : string)
    (task : Task) :
  no_stale_blocked tasks = true →
  get tasks k = Some task → status task = BLOCKED →
  list_truthy (dependencies task) = true ∧
  all_deps_complete tasks task = false.
Proof.
  intros Hinv Hget Hs. unfold no_stale_blocked in Hinv.
  rewrite forallb_forall in Hinv.
  apply get_Some_elem_of, list_elem_of_In in Hget.
  specialize (Hinv _ Hget). simpl in Hinv.
  rewrite bool_decide_true in Hinv by done. simpl in Hinv.
  apply andb_true_iff in Hinv as [? Hc]. by apply negb_true_iff in Hc.
Qed.








(** Conversely, a stale BLOCKED task (all its dependencies
    complete, or none listed) is unblocked by the pass of every successful
    [add_dependency] or [remove_dependency] on another task. *)
Lemma pass_after_setitem_unblocks_stale (tasks : list (string * Task))
    (task_id k : string) (old task stale : Task) :
  get tasks task_id = Some old →
  status task = status old →
  k ≠ task_id →
  get tasks k = Some stale →
  status stale = BLOCKED →
  all_deps_complete tasks stale = true →
  status <$> get (update_blocked (setitem tasks task_id task)) k
    = Some PENDING.
Proof.
  intros Hold Hs Hk Hget Hb Hall.
  rewrite get_update_blocked, get_setitem_ne, Hget by done. simpl. f_equal.
  unfold refresh_status.
  rewrite (all_deps_complete_ext _ tasks stale), Hb, Hall.
  - by destruct (list_truthy (dependencies stale)).
  - intros d. apply (completed_setitem_same _ _ _ old); [done|by rewrite Hs].
Qed.

Lemma add_dependency_unblocks_stale (self : PriorityQueue)
    (task_id depends_on k : string) (now : Z) (stale : Task) :
  (add_dependency self task_id depends_on now).1 = true →
  k ≠ task_id →
  get (_tasks self) k = Some stale →
  status stale = BLOCKED →
  all_deps_complete (_tasks self) stale = true →
  unblocks (AddDependency task_id depends_on) self now k.
Proof.
  intros Hok Hk Hget Hb Hall. split; [by rewrite Hget; simpl; f_equal|].
  simpl. unfold add_dependency in *.
  destruct (get (_tasks self) task_id) as [t|] eqn:Ht; [|done].
  destruct (get (_tasks self) depends_on); [|done].
  destruct (_would_create_cycle _ _ _); [done|]. simpl.
  apply (pass_after_setitem_unblocks_stale _ _ _ t _ stale); try done.
  by destruct (bool_decide (depends_on ∉ dependencies t)).
Qed.

Lemma remove_dependency_unblocks_stale (self : PriorityQueue)
    (task_id depends_on k : string) (now : Z) (stale : Task) :
  (remove_dependency self task_id depends_on).1 = true →
  k ≠ task_id →
  get (_tasks self) k = Some stale →
  status stale = BLOCKED →
  all_deps_complete (_tasks self) stale = true →
  unblocks (RemoveDependency task_id depends_on) self now k.
Proof.
  intros Hok Hk Hget Hb Hall. split; [by rewrite Hget; simpl; f_equal|].
  simpl. unfold remove_dependency in *.
  destruct (get (_tasks self) task_id) as [t|] eqn:Ht; [|done]. simpl.
  apply (pass_after_setitem_unblocks_stale _ _ _ t _ stale); try done.
  by destruct (bool_decide (depends_on ∈ dependencies t)).
Qed.

(** ** The invariant of the task dictionary

    A dictionary has no repeated key; together with the absence of stale
    BLOCKED tasks this holds in a new queue and after every operation. *)

Lemma no_stale_blocked_iff (tasks : list (string * Task)) :
  no_stale_blocked tasks = true ↔
  ∀ e, e ∈ tasks → status e.2 = BLOCKED →
       list_truthy (dependencies e.2) = true ∧
       all_deps_complete tasks e.2 = false.
Proof.
  unfold no_stale_blocked. rewrite forallb_forall. split.
  - intros H e He Hs. apply list_elem_of_In in He.
    specialize (H e He). rewrite bool_decide_true in H by done.
    simpl in H. apply andb_true_iff in H as [? Hc].
    by apply negb_true_iff in Hc.
  - intros H e He. apply list_elem_of_In in He.
    case_bool_decide as Hs; [|done]. simpl.
    destruct (H e He Hs) as [-> ->]. done.
Qed.

Lemma all_deps_complete_anti (tasks tasks' : list (string * Task))
    (task : Task) :
  (∀ d, completed tasks' d = true → completed tasks d = true) →
  all_deps_complete tasks task = false →
  all_deps_complete tasks' task = false.
Proof.
  intros Hc. unfold all_deps_complete.
  fold (completed tasks) (completed tasks').
  induction (dependencies task) as [|d deps IH]; simpl; [done|].
  intros H. apply andb_false_iff in H as [H|H].
  - destruct (completed tasks' d) eqn:Hd; [|done].
    apply Hc in Hd. congruence.
  - rewrite IH by done. apply andb_false_r.
Qed.

Lemma setitem_elem_of {V : Type} (d : list (string * V)) (k : string) (v : V)
    (e : string * V) :
  e ∈ setitem d k v → e = (k, v) ∨ e ∈ d.
Proof.
  induction d as [|[k0 v0] d IH]; simpl.
  - intros H. apply list_elem_of_singleton in H. by left.
  - destruct (decide (k0 = k)) as [->|Hne]; intros H;
      apply elem_of_cons in H as [->|H]; auto.
    + right. by right.
    + right. left.
    + destruct (IH H); auto. right. by right.
Qed.

Lemma pop_elem_of {V : Type} (d : list (string * V)) (k : string)
    (e : string * V) :
  e ∈ pop d k → e ∈ d.
Proof.
  induction d as [|[k0 v0] d IH]; simpl; [done|].
  destruct (decide (k0 = k)); intros H.
  - by right.
  - apply elem_of_cons in H as [->|H]; [left|right; auto].
Qed.

Lemma get_None_keys {V : Type} (d : list (string * V)) (k : string) :
  get d k = None ↔ k ∉ d.*1.
Proof.
  induction d as [|[k0 v0] d IH]; csimpl.
  - split; [intros _; apply not_elem_of_nil|done].
  - rewrite not_elem_of_cons. destruct (decide (k0 = k)) as [->|Hne].
    + split; [done|]. by intros [? _].
    + rewrite IH. split; [by intros ?; split|by intros [_ ?]].
Qed.

Lemma keys_setitem {V : Type} (d : list (string * V)) (k : string) (v : V) :
  (setitem d k v).*1 =
  match get d k with Some _ => d.*1 | None => d.*1 ++ [k] end.
Proof.
  induction d as [|[k0 v0] d IH]; csimpl; [done|].
  destruct (decide (k0 = k)); csimpl; [done|].
  rewrite IH. by destruct (get d k).
Qed.

Lemma NoDup_keys_setitem {V : Type} (d : list (string * V)) (k : string)
    (v : V) :
  NoDup d.*1 → NoDup (setitem d k v).*1.
Proof.
  intros Hd. rewrite keys_setitem.
  destruct (get d k) eqn:Hget; [done|].
  apply NoDup_app. split; [done|]. split; [|apply NoDup_singleton].
  intros x Hx Hk. apply list_elem_of_singleton in Hk as ->.
  by apply get_None_keys in Hget.
Qed.

Lemma NoDup_keys_pop {V : Type} (d : list (string * V)) (k : string) :
  NoDup d.*1 → NoDup (pop d k).*1 ∧ get (pop d k) k = None.
Proof.
  induction d as [|[k0 v0] d IH]; csimpl; [done|].
  intros Hd. apply NoDup_cons in Hd as [Hk0 Hd].
  destruct (decide (k0 = k)) as [->|Hne]; csimpl.
  - split; [done|]. by apply get_None_keys.
  - destruct (IH Hd) as [IH1 IH2]. rewrite decide_False by done.
    split; [|done]. apply NoDup_cons. split; [|done].
    intros Hin. apply Hk0.
    apply list_elem_of_fmap in Hin as (e & -> & He).
    apply list_elem_of_fmap. exists e. split; [done|].
    by eapply pop_elem_of.
Qed.

Lemma keys_update_blocked (tasks : list (string * Task)) :
  (update_blocked tasks).*1 = tasks.*1.
Proof.
  rewrite update_blocked_map.
  by rewrite <- list_fmap_compose.
Qed.

(** A pass leaves no stale BLOCKED task behind, whatever it started from. *)
Lemma no_stale_blocked_update_blocked (tasks : list (string * Task)) :
  no_stale_blocked (update_blocked tasks) = true.
Proof.
  apply no_stale_blocked_iff. intros e He Hs.
  rewrite update_blocked_map in He.
  apply list_elem_of_fmap in He as ([k t] & -> & Ht). simpl in *.
  rewrite refresh_status_dependencies.
  rewrite (all_deps_complete_ext (update_blocked tasks) tasks)
    by apply completed_update_blocked.
  assert (all_deps_complete tasks (refresh_status tasks t)
          = all_deps_complete tasks t) as ->.
  { unfold all_deps_complete. by rewrite refresh_status_dependencies. }
  revert Hs. unfold refresh_status.
  destruct (status t) eqn:Hst; simpl;
    destruct (list_truthy (dependencies t)),
             (all_deps_complete tasks t); simpl; rewrite ?Hst; done.
Qed.

(** Reassigning a key: the invariant survives if no task becomes COMPLETED
    and the new task is not a stale BLOCKED one. *)
Lemma no_stale_blocked_setitem (tasks : list (string * Task)) (k : string)
    (task : Task) :
  no_stale_blocked tasks = true →
  (∀ d, completed (setitem tasks k task) d = true → completed tasks d = true) →
  (status task = BLOCKED →
   list_truthy (dependencies task) = true ∧
   all_deps_complete tasks task = false) →
  no_stale_blocked (setitem tasks k task) = true.
Proof.
  rewrite !no_stale_blocked_iff. intros Hinv Hc Hnew e He Hs.
  apply setitem_elem_of in He as [->|He]; simpl in *.
  - destruct (Hnew Hs) as [? Hall]. split; [done|].
    by apply (all_deps_complete_anti tasks).
  - destruct (Hinv e He Hs) as [? Hall]. split; [done|].
    by apply (all_deps_complete_anti tasks).
Qed.

Lemma no_stale_blocked_pop (tasks : list (string * Task)) (k : string) :
  NoDup tasks.*1 →
  no_stale_blocked tasks = true →
  no_stale_blocked (pop tasks k) = true.
Proof.
  rewrite !no_stale_blocked_iff. intros Hnd Hinv e He Hs.
  destruct (Hinv e (pop_elem_of _ _ _ He) Hs) as [? Hall].
  split; [done|]. apply (all_deps_complete_anti tasks); [|done].
  intros d. unfold completed. destruct (decide (k = d)) as [<-|Hne].
  - by rewrite (proj2 (NoDup_keys_pop tasks k Hnd)).
  - by rewrite get_pop_ne.
Qed.

Lemma well_formed_setitem (tasks : list (string * Task)) (k : string)
    (task : Task) :
  well_formed tasks →
  status task ≠ COMPLETED →
  (status task = BLOCKED →
   list_truthy (dependencies task) = true ∧
   all_deps_complete tasks task = false) →
  well_formed (setitem tasks k task).
Proof.
  intros [Hnd Hinv] Hs Hnew. split; [by apply NoDup_keys_setitem|].
  apply no_stale_blocked_setitem; [done| |done].
  intros d. rewrite completed_setitem.
  destruct (decide (k = d)); [|done]. by rewrite bool_decide_false.
Qed.

Lemma well_formed_pass (tasks : list (string * Task)) (k : string)
    (task : Task) :
  well_formed tasks → well_formed (update_blocked (setitem tasks k task)).
Proof.
  intros [Hnd _]. split; [|apply no_stale_blocked_update_blocked].
  rewrite keys_update_blocked. by apply NoDup_keys_setitem.
Qed.

(** The queue of a new process is well formed, and every mutating
    operation keeps it so. *)
Lemma well_formed_new_queue (now : Z) : well_formed (_tasks (new_queue now)).
Proof. split; [apply NoDup_nil_2|done]. Qed.

Lemma well_formed_run (op : operation) (self : PriorityQueue) (now : Z) :
  well_formed (_tasks self) → well_formed (_tasks (run op self now)).
Proof.
  intros Hwf. destruct op; simpl.
  - (* add *)
    unfold add. simpl. apply well_formed_setitem; [done| |].
    + by repeat case_match.
    + destruct dependencies' as [[|d deps]|]; simpl; try done.
      destruct (all_deps_complete _ _) eqn:Hall; simpl; [done|].
      intros _. split; [done|]. exact Hall.
  - (* update *)
    unfold update.
    destruct (get (_tasks self) task_id) as [t|] eqn:Ht; simpl; [|done].
    destruct Hwf as [Hnd Hinv]. split; [by apply NoDup_keys_setitem|].
    apply no_stale_blocked_setitem; [done| |].
    + intros d Hd. rewrite <- Hd. symmetry.
      apply (completed_setitem_same _ _ _ t); [done|].
      by destruct title', description', priority', category',
        assigned_agent', deadline', tags', estimated_duration', notes'.
    + intros Hs.
      destruct (no_stale_blocked_get _ _ _ Hinv Ht) as [Hd Hall].
      { by destruct title', description', priority', category',
          assigned_agent', deadline', tags', estimated_duration', notes'. }
      by destruct title', description', priority', category',
        assigned_agent', deadline', tags', estimated_duration', notes'.
  - (* delete *)
    unfold delete.
    destruct (get (_tasks self) task_id); simpl; [|done].
    destruct Hwf as [Hnd Hinv]. split.
    + by apply NoDup_keys_pop.
    + by apply no_stale_blocked_pop.
  - (* start *)
    unfold start.
    destruct (get (_tasks self) task_id) as [t|]; simpl; [|done].
    destruct (bool_decide (status t = BLOCKED)); simpl; [done|].
    destruct agent as [a|]; [destruct (str_truthy a)|]; simpl;
      by apply well_formed_setitem.
  - (* complete *)
    unfold complete.
    destruct (get (_tasks self) task_id) as [t|]; simpl; [|done].
    by apply well_formed_pass.
  - (* fail *)
    unfold fail.
    destruct (get (_tasks self) task_id) as [t|]; simpl; [|done].
    destruct (str_truthy reason); by apply well_formed_setitem.
  - (* cancel *)
    unfold cancel.
    destruct (get (_tasks self) task_id) as [t|]; simpl; [|done].
    destruct (str_truthy reason); by apply well_formed_setitem.
  - (* add_dependency *)
    unfold add_dependency.
    destruct (get (_tasks self) task_id) as [t|]; simpl; [|done].
    destruct (get (_tasks self) depends_on); simpl; [|done].
    destruct (_would_create_cycle _ _ _); simpl; [done|].
    by apply well_formed_pass.
  - (* remove_dependency *)
    unfold remove_dependency.
    destruct (get (_tasks self) task_id) as [t|]; simpl; [|done].
    by apply well_formed_pass.
Qed.

(** ** The scenarios of the specification, evaluated *)

(** "Dep" is added, then "Main" depending on it: "Main" starts BLOCKED and
    [get_next] returns "Dep"; once "Dep" is started and completed, "Main"
    is PENDING and [get_next] returns it. *)
Example scenario_dependency :
  let q1 := (add (new_queue 0) "dep" "Dep" "" MEDIUM OTHER "ANY" ""
               None None None 30 1).2 in
  let q2 := (add q1 "main" "Main" "" MEDIUM OTHER "ANY" "" None
               (Some ["dep"]) None 30 2).2 in
  let q3 := (start q2 "dep" None 3).2 in
  let q4 := (complete q3 "dep" "" 4).2 in
  status <$> get (_tasks q2) "main" = Some BLOCKED ∧
  id <$> (get_next q2 None 3).1 = Some "dep" ∧
  status <$> get (_tasks q4) "main" = Some PENDING ∧
  id <$> (get_next q4 None 5).1 = Some "main".
Proof. repeat split; reflexivity. Qed.

(** A LOW task one hour overdue goes before a CRITICAL task without
    deadline. *)
Example scenario_overdue_low :
  let q1 := (add (new_queue 0) "c" "Critical" "" CRITICAL OTHER "ANY" ""
               None None None 30 (days 1)).2 in
  let q2 := (add q1 "o" "Overdue-Low" "" LOW OTHER "ANY" ""
               (Some (Instant (days 1 - 3600000000))) None None 30
               (days 1)).2 in
  id <$> (get_next q2 None (days 1)).1 = Some "o".
Proof. reflexivity. Qed.

(** Asked for "FORGE", [get_next] passes over the task of "ATLAS" and
    returns the "ANY" task; asked for "ATLAS", it returns the task of
    "ATLAS", which comes first among the two equal scores. *)
Example scenario_agent_filter :
  let q1 := (add (new_queue 0) "t1" "Atlas Task" "" MEDIUM OTHER "ATLAS" ""
               None None None 30 1).2 in
  let q2 := (add q1 "t2" "Any Task" "" MEDIUM OTHER "ANY" ""
               None None None 30 2).2 in
  id <$> (get_next q2 (Some "FORGE") 3).1 = Some "t2" ∧
  id <$> (get_next q2 (Some "ATLAS") 3).1 = Some "t1".
Proof. split; reflexivity. Qed.

(** Rounding decides between products that are equal as real numbers:
    1 * 0.3 is below 3 * 0.1, so a CRITICAL task due within the hour goes
    before an overdue MEDIUM task added earlier. *)
Example scenario_rounding :
  let q1 := (add (new_queue 0) "m" "Medium overdue" "" MEDIUM OTHER "ANY" ""
               (Some (Instant 0)) None None 30 1).2 in
  let q2 := (add q1 "c" "Critical soon" "" CRITICAL OTHER "ANY" ""
               (Some (Instant 1000)) None None 30 2).2 in
  id <$> (get_next q2 None 3).1 = Some "c".
Proof. reflexivity. Qed.

(** The base priorities are ordered. *)
Example base_priority_order :
  let score p :=
    calculate_score
      (mkTask "t" "T" "" PENDING p OTHER "ANY" "" (Instant 0) None [] [] 30
         None None None "") 0 in
  PrimFloat.ltb (score CRITICAL) (score HIGH) = true ∧
  PrimFloat.ltb (score HIGH) (score MEDIUM) = true ∧
  PrimFloat.ltb (score MEDIUM) (score LOW) = true ∧
  PrimFloat.ltb (score LOW) (score BACKLOG) = true.
Proof. repeat split; reflexivity. Qed.

(** * Further properties of the code *)

(** ** Unknown identifiers and refused calls *)

(** X1: a call that names a task identifier absent from the queue returns
    false and leaves the queue, its history included, as it was; so does
    [add_dependency] when the dependency named is absent. *)
Theorem unknown_task_rejected
    (self : PriorityQueue) (task_id : string) (now : Z) :
  get_task self task_id = None →
  (∀ t d p c a dl tg e n,
      update self task_id t d p c a dl tg e n now = (false, self)) ∧
  delete self task_id now = (false, self) ∧
  (∀ agent, start self task_id agent now = (false, self)) ∧
  (∀ notes', complete self task_id notes' now = (false, self)) ∧
  (∀ reason, fail self task_id reason now = (false, self)) ∧
  (∀ reason, cancel self task_id reason now = (false, self)) ∧
  (∀ other, add_dependency self task_id other now = (false, self)) ∧
  (∀ other, add_dependency self other task_id now = (false, self)) ∧
  (∀ other, remove_dependency self task_id other = (false, self)).
Proof.
  unfold get_task. intros Hget.
  unfold update, delete, start, complete, fail, cancel, add_dependency,
    remove_dependency.
  rewrite Hget. repeat split; try done.
  intros other. by destruct (get (_tasks self) other).
Qed.

Lemma unknown_task_rejected_witness :
  complete demo_queue "nonexistent" "" 4 = (false, demo_queue).
Proof.
  apply (unknown_task_rejected demo_queue "nonexistent" 4).
  reflexivity.
Defined.

Lemma setitem_same {V : Type} (d : list (string * V)) (k : string) (v : V) :
  get d k = Some v → setitem d k v = d.
Proof.
  induction d as [|[k0 v0] d IH]; simpl; [done|].
  destruct (decide (k0 = k)) as [->|Hne].
  - by intros [= ->].
  - intros H. by rewrite IH.
Qed.

(** ** [start], [complete], [fail], [cancel] *)

(** X2: [start] succeeds exactly when the task is known and not BLOCKED;
    nothing else is checked, so a task that is already IN_PROGRESS,
    COMPLETED, CANCELLED or FAILED is started again.  A refused call
    changes nothing; an accepted one leaves the task IN_PROGRESS with
    [started_at] set to the clock reading. *)
Theorem start_accepts_all_but_blocked
    (self : PriorityQueue) (task_id : string) (agent : option string)
    (now : Z) :
  ((start self task_id agent now).1 = true ↔
   ∃ task, get_task self task_id = Some task ∧ status task ≠ BLOCKED) ∧
  ((start self task_id agent now).1 = false →
   (start self task_id agent now).2 = self) ∧
  ((start self task_id agent now).1 = true →
   ∃ task', get_task (start self task_id agent now).2 task_id = Some task' ∧
            status task' = IN_PROGRESS ∧
            started_at task' = Some (isoformat now)).
Proof.
  unfold get_task, start.
  destruct (get (_tasks self) task_id) as [task|] eqn:Hget; simpl.
  - case_bool_decide as Hs; simpl.
    + split; [|done]. split; [done|]. intros (t & [= <-] & Hne). done.
    + split; [|split].
      * destruct agent as [a|]; [destruct (str_truthy a)|]; simpl;
          (split; [intros _; by exists task|done]).
      * by destruct agent as [a|]; [destruct (str_truthy a)|].
      * intros _.
        destruct agent as [a|]; [destruct (str_truthy a)|]; simpl;
          rewrite get_setitem_eq; by eexists.
  - split; [|done]. split; [done|]. by intros (t & ? & _).
Qed.

Lemma start_accepts_all_but_blocked_witness :
  ∃ task',
    get_task
      (start (complete (start demo_queue "dep" None 4).2 "dep" "" 5).2
         "dep" None 6).2 "dep" = Some task' ∧
    status task' = IN_PROGRESS ∧ started_at task' = Some (isoformat 6).
Proof.
  apply (proj2 (proj2
    (start_accepts_all_but_blocked
       (complete (start demo_queue "dep" None 4).2 "dep" "" 5).2
       "dep" None 6))).
  reflexivity.
Defined.

(** X3: an accepted [start] that names a non-empty agent assigns the task
    to it and, when the agent is registered, records it as unavailable
    with this task as its current task, whether or not it was available
    or already had a current task; every other agent record is untouched.
    Without an agent (or with the empty string) no agent record changes,
    not even that of the agent the task is assigned to. *)
Theorem start_books_named_agent
    (self : PriorityQueue) (task_id : string) (agent : option string)
    (now : Z) :
  (start self task_id agent now).1 = true →
  match agent with
  | Some a =>
      if str_truthy a then
        assigned_agent <$> get_task (start self task_id agent now).2 task_id
          = Some a ∧
        _agents (start self task_id agent now).2 !! a =
          (fun st => mkAgentStatus (name st) false (Some task_id)
                       (last_active st) (completed_today st)
                       (capabilities st) (max_concurrent st))
            <$> _agents self !! a ∧
        ∀ b, b ≠ a →
             _agents (start self task_id agent now).2 !! b =
               _agents self !! b
      else _agents (start self task_id agent now).2 = _agents self
  | None => _agents (start self task_id agent now).2 = _agents self
  end.
Proof.
  unfold get_task, start.
  destruct (get (_tasks self) task_id) as [task|]; simpl; [|done].
  case_bool_decide; simpl; [done|]. intros _.
  destruct agent as [a|]; [|done].
  destruct (str_truthy a); simpl; [|done].
  rewrite get_setitem_eq. simpl. split; [done|].
  destruct (_agents self !! a) as [st|] eqn:Ha; simpl.
  - rewrite lookup_insert_eq. split; [done|].
    intros b Hb. by rewrite lookup_insert_ne.
  - by rewrite Ha.
Qed.

Lemma start_books_named_agent_witness :
  _agents (start (start demo_queue "dep" (Some "FORGE") 4).2
             "solo" (Some "FORGE") 5).2 !! "FORGE" =
  (fun st => mkAgentStatus (name st) false (Some "solo")
               (last_active st) (completed_today st)
               (capabilities st) (max_concurrent st))
    <$> _agents (start demo_queue "dep" (Some "FORGE") 4).2 !! "FORGE".
Proof.
  apply (start_books_named_agent
           (start demo_queue "dep" (Some "FORGE") 4).2
           "solo" (Some "FORGE") 5).
  reflexivity.
Defined.

Lemma refresh_status_terminal (tasks : list (string * Task)) (task : Task) :
  status task ∈ [COMPLETED; CANCELLED; FAILED; IN_PROGRESS] →
  refresh_status tasks task = task.
Proof. intros H. unfold refresh_status. by rewrite bool_decide_true. Qed.




(** X5: a task started by a registered agent and then cancelled is
    CANCELLED, but the agent stays unavailable with the cancelled task as
    its current task. *)
Theorem start_then_cancel_keeps_agent_booked
    (self : PriorityQueue) (task_id a reason : string) (now1 now2 : Z)
    (task : Task) (st : AgentStatus) :
  get_task self task_id = Some task →
  status task ≠ BLOCKED →
  a ≠ "" →
  _agents self !! a = Some st →
  let q1 := (start self task_id (Some a) now1).2 in
  let q2 := (cancel q1 task_id reason now2).2 in
  status <$> get_task q2 task_id = Some CANCELLED ∧
  _agents q2 !! a =
    Some (mkAgentStatus (name st) false (Some task_id) (last_active st)
            (completed_today st) (capabilities st) (max_concurrent st)).
Proof.
  unfold get_task. intros Hget Hs Ha Hst. simpl.
  assert (str_truthy a = true) as Hta
    by (unfold str_truthy; by rewrite bool_decide_false).
  unfold start. rewrite Hget, bool_decide_false, Hta by done. simpl.
  rewrite Hst. unfold cancel. simpl. rewrite get_setitem_eq.
  destruct (str_truthy reason); simpl; rewrite get_setitem_eq;
    (split; [done|]); rewrite lookup_insert_eq; by rewrite lookup_insert_eq.
Qed.

Lemma start_then_cancel_keeps_agent_booked_witness :
  _agents (cancel (start demo_queue "solo" (Some "FORGE") 4).2
             "solo" "changed plans" 5).2 !! "FORGE" =
  Some (mkAgentStatus "FORGE" false (Some "solo") (Instant 0) 0
          (_get_agent_capabilities "FORGE") 1).
Proof.
  apply (start_then_cancel_keeps_agent_booked demo_queue "solo" "FORGE"
           "changed plans" 4 5
           (mkTask "solo" "Solo" "" PENDING LOW OTHER "FORGE" "" (Instant 3)
              None [] [] 30 None None None "")
           (mkAgentStatus "FORGE" true None (Instant 0) 0
              (_get_agent_capabilities "FORGE") 1)).
  - reflexivity.
  - discriminate.
  - discriminate.
  - reflexivity.
Defined.

(** X6: [fail] on a known task returns true, marks it FAILED with the
    completion time set and, for a non-empty reason, the notes replaced by
    "FAILED: " followed by the reason.  The agent it is assigned to, when
    registered, becomes available with no current task, its completed
    counter and last-active time unchanged.  No other task changes: the
    blocked/pending pass is not run. *)
Theorem fail_marks_failed_and_releases
    (self : PriorityQueue) (task_id reason : string) (now : Z) (task : Task) :
  get_task self task_id = Some task →
  (fail self task_id reason now).1 = true ∧
  get_task (fail self task_id reason now).2 task_id =
    Some (mkTask (id task) (title task) (description task) FAILED
            (priority task) (category task) (assigned_agent task)
            (created_by task) (created_at task) (deadline task)
            (dependencies task) (tags task) (estimated_duration task)
            (actual_duration task) (started_at task) (Some (isoformat now))
            (if bool_decide (reason = "") then notes task
             else "FAILED: " +:+ reason)) ∧
  (∀ k, k ≠ task_id →
        get_task (fail self task_id reason now).2 k = get_task self k) ∧
  _agents (fail self task_id reason now).2 !! assigned_agent task =
    (fun st => mkAgentStatus (name st) true None (last_active st)
                 (completed_today st) (capabilities st) (max_concurrent st))
      <$> _agents self !! assigned_agent task ∧
  (∀ b, b ≠ assigned_agent task →
        _agents (fail self task_id reason now).2 !! b = _agents self !! b).
Proof.
  unfold get_task, fail, str_truthy. intros ->.
  destruct (bool_decide (reason = "")); simpl;
    (split; [done|]); rewrite get_setitem_eq;
    (split; [done|]);
    (split; [by intros k Hk; rewrite get_setitem_ne|]);
    destruct (_agents self !! assigned_agent task) as [st|] eqn:Hst; simpl;
    rewrite ?lookup_insert_eq, ?Hst;
    (split; [done|]); intros b Hb; by rewrite ?lookup_insert_ne.
Qed.

Lemma fail_marks_failed_and_releases_witness :
  (fail (start demo_queue "solo" (Some "FORGE") 4).2 "solo" "broke" 5).1
    = true.
Proof.
  apply (fail_marks_failed_and_releases
           (start demo_queue "solo" (Some "FORGE") 4).2 "solo" "broke" 5
           (mkTask "solo" "Solo" "" IN_PROGRESS LOW OTHER "FORGE" ""
              (Instant 3) None [] [] 30 None (Some (Instant 4)) None "")).
  reflexivity.
Defined.

(** ** [add], [get], [update], [delete] *)

(** X7: [add] returns the identifier it stores the task under, and [get]
    then finds the task with the fields given, created at the clock
    reading, not started; it is BLOCKED when it lists a dependency that is
    missing or not COMPLETED at that moment and PENDING otherwise.  Every
    other task and every agent record is as before. *)
Theorem add_then_get
    (self : PriorityQueue) (task_id title' description' : string)
    (priority' : TaskPriority) (category' : TaskCategory)
    (assigned_agent' created_by' : string) (deadline' : option isostring)
    (dependencies' tags' : option (list string)) (estimated_duration' : Z)
    (now : Z) :
  let r := add self task_id title' description' priority' category'
             assigned_agent' created_by' deadline' dependencies' tags'
             estimated_duration' now in
  r.1 = task_id ∧
  get_task r.2 task_id =
    Some (mkTask task_id title' description'
            (if forallb (completed (_tasks self)) (or_empty dependencies')
             then PENDING else BLOCKED)
            priority' category' assigned_agent' created_by' (isoformat now)
            deadline' (or_empty dependencies') (or_empty tags')
            estimated_duration' None None None "") ∧
  (∀ k, k ≠ task_id → get_task r.2 k = get_task self k) ∧
  _agents r.2 = _agents self.
Proof.
  unfold get_task, add. simpl. rewrite get_setitem_eq.
  split; [done|]. split; [|split; [|done]].
  - f_equal. unfold all_deps_complete, completed. simpl.
    destruct (or_empty dependencies') as [|d deps]; simpl; [done|].
    by destruct (_ && _).
  - intros k Hk. by rewrite get_setitem_ne.
Qed.



Lemma filter_other_keys {V : Type} (d : list (string * V)) (k : string) :
  k ∉ d.*1 → filter (fun e => e.1 ≠ k) d = d.
Proof.
  induction d as [|[k0 v0] d IH]; csimpl; [done|].
  intros Hk. apply not_elem_of_cons in Hk as [Hne Hk].
  rewrite filter_cons_True by (simpl; congruence). by rewrite IH.
Qed.

Lemma pop_filter {V : Type} (d : list (string * V)) (k : string) :
  NoDup d.*1 → pop d k = filter (fun e => e.1 ≠ k) d.
Proof.
  induction d as [|[k0 v0] d IH]; csimpl; [done|].
  intros Hd. apply NoDup_cons in Hd as [Hk0 Hd].
  destruct (decide (k0 = k)) as [->|Hne].
  - rewrite filter_cons_False by (simpl; intros H; by apply H).
    by rewrite filter_other_keys.
  - rewrite filter_cons_True by done. by rewrite IH.
Qed.

(** X9: in a dictionary without repeated keys, [delete] of a known task
    returns true and removes that entry and nothing else: the other tasks
    keep their place, their status and their dependency lists (a list
    naming the deleted task still names it), and no agent record changes,
    so an agent whose current task is the deleted one stays booked. *)
Theorem delete_removes_only_that_task
    (self : PriorityQueue) (task_id : string) (now : Z) :
  NoDup (_tasks self).*1 →
  is_Some (get_task self task_id) →
  (delete self task_id now).1 = true ∧
  _tasks (delete self task_id now).2 =
    filter (fun e => e.1 ≠ task_id) (_tasks self) ∧
  get_task (delete self task_id now).2 task_id = None ∧
  (∀ k, k ≠ task_id →
        get_task (delete self task_id now).2 k = get_task self k) ∧
  _agents (delete self task_id now).2 = _agents self.
Proof.
  unfold get_task, delete. intros Hnd [task ->]. simpl.
  split; [done|]. split; [by apply pop_filter|].
  split; [by apply NoDup_keys_pop|]. split; [|done].
  intros k Hk. by rewrite get_pop_ne.
Qed.

Lemma delete_removes_only_that_task_witness :
  _tasks (delete demo_queue "dep" 4).2 =
  filter (fun e => e.1 ≠ "dep") (_tasks demo_queue).
Proof.
  apply (delete_removes_only_that_task demo_queue "dep" 4).
  - compute_done.
  - eexists. reflexivity.
Defined.

(** ** The blocked/pending pass, as a whole *)

Lemma set_status_same (task : Task) : set_status (status task) task = task.
Proof. by destruct task. Qed.

Lemma refresh_status_recomputed (tasks : list (string * Task)) (task : Task) :
  refresh_status tasks task =
  set_status (recomputed_status tasks task) task.
Proof.
  unfold refresh_status, recomputed_status, all_deps_complete.
  fold (completed tasks).
  case_bool_decide as Hskip; [by rewrite set_status_same|].
  destruct (dependencies task) as [|d deps] eqn:Hd; simpl.
  - case_bool_decide as Hb; [done|].
    destruct (status task) eqn:Hs; try done;
      try (exfalso; apply Hskip; rewrite ?Hs; compute_done).
    by rewrite <- Hs, set_status_same.
  - destruct (completed tasks d && forallb (completed tasks) deps); simpl;
      [|done].
    case_bool_decide as Hb; [done|].
    destruct (status task) eqn:Hs; try done;
      try (exfalso; apply Hskip; rewrite ?Hs; compute_done).
    by rewrite <- Hs, set_status_same.
Qed.

(** X10: the pass keeps the entries, their order and every field but the
    status, and gives each task the status that the rule computes from the
    statuses before the pass: although the loop reassigns statuses while it
    runs, no task's outcome depends on the position of the tasks in the
    dictionary.  The agents and the history are untouched. *)
Theorem update_blocked_status_recomputes (self : PriorityQueue) :
  _tasks (_update_blocked_status self) =
    map (fun e => (e.1, set_status (recomputed_status (_tasks self) e.2) e.2))
      (_tasks self) ∧
  _agents (_update_blocked_status self) = _agents self ∧
  _history (_update_blocked_status self) = _history self.
Proof.
  split; [|done]. simpl. rewrite update_blocked_map.
  apply map_ext. intros [k t]. simpl. f_equal.
  apply refresh_status_recomputed.
Qed.

Lemma forallb_ext_all {A : Type} (f g : A → bool) (l : list A) :
  (∀ x, f x = g x) → forallb f l = forallb g l.
Proof. intros H. induction l as [|x l IH]; simpl; [done|]. by rewrite H, IH. Qed.

Lemma complete_tasks (self : PriorityQueue) (task_id notes' : string)
    (now : Z) (task : Task) :
  get (_tasks self) task_id = Some task →
  ∃ task',
    _tasks (complete self task_id notes' now).2 =
      update_blocked (setitem (_tasks self) task_id task') ∧
    status task' = COMPLETED ∧
    dependencies task' = dependencies task.
Proof.
  intros Hget. unfold complete. rewrite Hget. simpl.
  eexists. split; [done|].
  destruct (str_truthy notes'), (started_at task) as [[s|raw]|] eqn:Hst;
    simpl; rewrite ?Hst; simpl; try done;
    by destruct (str_truthy raw).
Qed.

(** X11: completing a known task gives every other task that is neither
    terminal nor in progress the status PENDING when each dependency it
    lists is the completed task or names a task that was already
    COMPLETED, and the status BLOCKED otherwise: a dependent is unblocked
    by the completion of its last incomplete dependency and not
    before. *)
Theorem complete_unblocks_dependents
    (self : PriorityQueue) (task_id notes' other : string) (now : Z)
    (dependent : Task) :
  is_Some (get_task self task_id) →
  other ≠ task_id →
  get_task self other = Some dependent →
  status dependent ∉ [COMPLETED; CANCELLED; FAILED; IN_PROGRESS] →
  get_task (complete self task_id notes' now).2 other =
    Some (set_status
            (if forallb
                  (fun d => bool_decide (d = task_id)
                            || completed (_tasks self) d)
                  (dependencies dependent)
             then PENDING else BLOCKED)
            dependent).
Proof.
  unfold get_task. intros [task Hget] Hne Hother Hs.
  destruct (complete_tasks self task_id notes' now task Hget)
    as (task' & -> & Hc & _).
  rewrite get_update_blocked, get_setitem_ne, Hother by done. simpl.
  rewrite refresh_status_recomputed. do 2 f_equal.
  unfold recomputed_status. rewrite bool_decide_false by done.
  rewrite (forallb_ext_all _
             (fun d => bool_decide (d = task_id)
                       || completed (_tasks self) d)); [done|].
  intros d. rewrite completed_setitem, Hc.
  destruct (decide (task_id = d)) as [<-|Hd].
  - by rewrite !bool_decide_true.
  - by rewrite (bool_decide_false (d = task_id)).
Qed.

Lemma complete_unblocks_dependents_witness :
  get_task (complete demo_queue "dep" "" 4).2 "main" =
  Some (set_status PENDING
          (mkTask "main" "Main" "" BLOCKED HIGH OTHER "ATLAS" "" (Instant 2)
             None ["dep"] [] 30 None None None "")).
Proof.
  apply (complete_unblocks_dependents demo_queue "dep" "" "main" 4
           (mkTask "main" "Main" "" BLOCKED HIGH OTHER "ATLAS" "" (Instant 2)
              None ["dep"] [] 30 None None None "")).
  - eexists. reflexivity.
  - discriminate.
  - reflexivity.
  - compute_done.
Defined.

(** ** Dependencies *)














Lemma get_elem_of_NoDup {V : Type} (d : list (string * V)) (k : string) (v : V) :
  NoDup d.*1 → (k, v) ∈ d → get d k = Some v.
Proof.
  induction d as [|[k0 v0] d IH]; csimpl; intros Hnd Hin.
  - by apply elem_of_nil in Hin.
  - apply NoDup_cons in Hnd as [Hk0 Hnd].
    apply elem_of_cons in Hin as [[= -> ->]|Hin].
    + by rewrite decide_True.
    + rewrite decide_False; [by apply IH|].
      intros ->. apply Hk0. apply list_elem_of_fmap. by exists (k, v).
Qed.








(** ** [get_queue] and its callers *)

Lemma filter_option {A B : Type} (o : option B) (P : B → A → Prop)
    `{!∀ b x, Decision (P b x)} (f : B → A → bool) (l : list A) :
  (∀ b x, f b x = true ↔ P b x) →
  match o with Some b => filter (P b) l | None => l end =
  filter (fun x => match o with Some b => f b x | None => true end = true) l.
Proof.
  intros Hf. destruct o as [b|].
  - apply list_filter_iff. intros x. by rewrite Hf.
  - symmetry. by apply filter_all.
Qed.

Lemma sort_by_ascending (now : Z) (l : list Task) :
  ascending now (sort_by (fun t => calculate_score t now) l).
Proof.
  pose proof (sort_by_sorted (fun t => calculate_score t now)
                (fun t => rank (shape_of t now))
                (fun x y => ltb_calculate_score x y now) l) as H.
  unfold ascending.
  induction H as [|a s Hs IH Ha]; constructor; [done|].
  eapply Forall_impl; [exact Ha|]. intros b Hab. simpl in Hab.
  rewrite ltb_calculate_score. by apply Nat.ltb_ge.
Qed.

(** The list that [get_queue] ranks: the tasks passing the filters, in
    dictionary order, after the pass. *)
Lemma get_queue_sorts_selected
    (self : PriorityQueue) (status' : option TaskStatus)
    (agent : option string) (category' : option TaskCategory)
    (priority' : option TaskPriority) (limit : Z) (now : Z) :
  get_queue self status' agent category' priority' limit now =
  (slice_to
     (sort_by (fun t => calculate_score t now)
        (filter
           (fun t => selected status' agent category' priority' t = true)
           (values (_tasks (_update_blocked_status self)))))
     limit,
   _update_blocked_status self).
Proof.
  unfold get_queue. f_equal. f_equal. f_equal.
  set (l := values (_tasks (_update_blocked_status self))).
  rewrite (filter_option status' (fun s t => status t = s)
             (fun s t => bool_decide (status t = s)))
    by (intros; apply bool_decide_eq_true).
  assert (∀ l0 : list Task,
    match agent with
    | Some a =>
        if str_truthy a
        then filter (fun t => assigned_agent t = a ∨ assigned_agent t = "ANY")
               l0
        else l0
    | None => l0
    end =
    filter
      (fun t =>
         match agent with
         | Some a =>
             if str_truthy a
             then bool_decide (assigned_agent t = a ∨ assigned_agent t = "ANY")
             else true
         | None => true
         end = true) l0) as ->.
  { intros l0. destruct agent as [a|]; [|by rewrite filter_all].
    destruct (str_truthy a); [|by rewrite filter_all].
    apply list_filter_iff. intros t. by rewrite bool_decide_eq_true. }
  rewrite (filter_option category' (fun c t => category t = c)
             (fun c t => bool_decide (category t = c)))
    by (intros; apply bool_decide_eq_true).
  rewrite (filter_option priority' (fun p t => priority t = p)
             (fun p t => bool_decide (priority t = p)))
    by (intros; apply bool_decide_eq_true).
  rewrite !list_filter_filter. apply list_filter_iff. intros t.
  unfold selected. rewrite !andb_true_iff. tauto.
Qed.

(** X16: [get_queue] runs the blocked/pending pass and returns a slice of
    a ranking: the ranking holds exactly the tasks that pass every filter
    given (status, category, priority; agent or "ANY" when a non-empty
    agent is given), each once, in ascending order of score; for a limit
    that is not negative the result is the first [limit] tasks of the
    ranking, all of them when there are fewer. *)
Theorem get_queue_ranks_selected
    (self : PriorityQueue) (status' : option TaskStatus)
    (agent : option string) (category' : option TaskCategory)
    (priority' : option TaskPriority) (limit : Z) (now : Z) :
  0 ≤ limit →
  (get_queue self status' agent category' priority' limit now).2 =
    _update_blocked_status self ∧
  ∃ ranking,
    ranking ≡ₚ
      filter (fun t => selected status' agent category' priority' t = true)
        (values (_tasks (_update_blocked_status self))) ∧
    ascending now ranking ∧
    (get_queue self status' agent category' priority' limit now).1 =
      take (Z.to_nat limit) ranking.
Proof.
  intros Hlimit. rewrite get_queue_sorts_selected. simpl. split; [done|].
  eexists. split; [|split; [apply sort_by_ascending|]].
  - apply sort_by_Permutation.
  - unfold slice_to. by rewrite (proj2 (Z.ltb_ge limit 0)).
Qed.

Lemma get_queue_ranks_selected_witness :
  (get_queue demo_queue (Some PENDING) None None None 50 4).2 =
  _update_blocked_status demo_queue.
Proof.
  apply (get_queue_ranks_selected demo_queue (Some PENDING) None None None
           50 4).
  lia.
Defined.

Lemma update_blocked_idemp (tasks : list (string * Task)) :
  update_blocked (update_blocked tasks) = update_blocked tasks.
Proof.
  rewrite (update_blocked_map (update_blocked tasks)).
  erewrite map_ext;
    [|intros e;
      rewrite (refresh_status_ext _ tasks) by apply completed_update_blocked;
      reflexivity].
  rewrite (update_blocked_map tasks), map_map. simpl.
  apply map_ext. intros [k t]. simpl. f_equal. apply refresh_status_idemp.
Qed.

Lemma selected_pending_wanted (agent : option string) (t : Task) :
  selected (Some PENDING) agent None None t = true ↔
  wanted_by agent t = true ∧ status t = PENDING.
Proof.
  unfold selected, wanted_by. rewrite !andb_true_r, andb_true_iff.
  rewrite bool_decide_eq_true.
  destruct agent as [a|]; [destruct (str_truthy a)|];
    rewrite ?bool_decide_eq_true; tauto.
Qed.

(** X17: [get_next] returns the first task of [get_queue] asked for the
    PENDING tasks of the same agent with any positive limit (none when
    that list is empty), and leaves the queue in the same state.
    [reorder] returns what [get_pending] returns with the limit 50: the
    pass it runs first changes nothing that the pass inside [get_pending]
    would not do. *)
Theorem get_next_heads_pending_queue
    (self : PriorityQueue) (agent : option string) (limit : Z) (now : Z) :
  0 < limit →
  (get_next self agent now).1 =
    head (get_queue self (Some PENDING) agent None None limit now).1 ∧
  (get_next self agent now).2 =
    (get_queue self (Some PENDING) agent None None limit now).2 ∧
  reorder self now = get_pending self 50 now.
Proof.
  intros Hlimit. rewrite get_next_candidates, get_queue_sorts_selected.
  simpl. split; [|split; [done|]].
  - unfold candidates.
    rewrite (list_filter_iff _
               (fun t => selected (Some PENDING) agent None None t = true))
      by (intros t; by rewrite selected_pending_wanted).
    unfold slice_to. rewrite (proj2 (Z.ltb_ge limit 0)) by lia.
    destruct (Z.to_nat limit) as [|n] eqn:Hn; [lia|].
    by destruct (sort_by _ _).
  - unfold reorder, get_pending. rewrite !get_queue_sorts_selected.
    unfold _update_blocked_status. simpl.
    by rewrite update_blocked_idemp.
Qed.

Lemma get_next_heads_pending_queue_witness :
  (get_next demo_queue (Some "FORGE") 4).1 =
  head (get_queue demo_queue (Some PENDING) (Some "FORGE") None None 50 4).1.
Proof.
  apply (get_next_heads_pending_queue demo_queue (Some "FORGE") 50 4).
  lia.
Defined.

(** ** The history *)

(** X18: [get_history] returns the last [limit] entries of the history
    for a positive limit (all of them when there are fewer).  For the
    limit 0 it returns the whole history, not an empty list, and for a
    negative limit it drops that many entries from the front. *)
Theorem get_history_limit (self : PriorityQueue) (limit : Z) :
  (0 < limit →
   get_history self limit =
     drop (length (_history self) - Z.to_nat limit) (_history self)) ∧
  (limit = 0 → get_history self limit = _history self) ∧
  (limit < 0 →
   get_history self limit = drop (Z.to_nat (- limit)) (_history self)).
Proof.
  unfold get_history, slice_last. split; [|split].
  - intros H. rewrite (proj2 (Z.ltb_lt (- limit) 0)) by lia. f_equal. lia.
  - intros ->. done.
  - intros H. by rewrite (proj2 (Z.ltb_ge (- limit) 0)) by lia.
Qed.

Lemma get_history_limit_witness :
  get_history demo_queue 0 = _history demo_queue.
Proof.
  apply (proj1 (proj2 (get_history_limit demo_queue 0))). reflexivity.
Defined.

(** X19: a mutating call appends one entry to the history, stamped with
    the clock reading and naming the action and the task, exactly when it
    is accepted and is not [remove_dependency]; a refused call and every
    [remove_dependency] leave the history as it was.  No call removes or
    rewrites an entry. *)
Theorem history_records_accepted_calls
    (op : operation) (self : PriorityQueue) (now : Z) :
  _history (run op self now) =
    if outcome op self now && negb (is_remove_dependency op)
    then _history self ++
         [mkHistoryEntry (isoformat now) (action_name op) (subject op)]
    else _history self.
Proof.
  destruct op; simpl.
  - done.
  - unfold update. by destruct (get (_tasks self) task_id).
  - unfold delete. by destruct (get (_tasks self) task_id).
  - unfold start. destruct (get (_tasks self) task_id); [|done].
    destruct (bool_decide _); [done|].
    by destruct agent as [a|]; [destruct (str_truthy a)|].
  - unfold complete. by destruct (get (_tasks self) task_id).
  - unfold fail. by destruct (get (_tasks self) task_id).
  - unfold cancel. by destruct (get (_tasks self) task_id).
  - unfold add_dependency. destruct (get (_tasks self) task_id); [|done].
    destruct (get (_tasks self) depends_on); [|done].
    by destruct (_would_create_cycle _ _ _).
  - unfold remove_dependency. rewrite andb_false_r.
    by destruct (get (_tasks self) task_id).
Qed.

(** ** The agent registry *)

Lemma initialize_agents_fold (now : Z) (names : list string)
    (agents : gmap string AgentStatus) (a : string) :
  foldl
    (fun agents agent_name =>
       if bool_decide (agents !! agent_name = None ∧ agent_name ≠ "ANY")
       then <[agent_name :=
                mkAgentStatus agent_name true None (isoformat now) 0
                  (_get_agent_capabilities agent_name) 1]> agents
       else agents)
    agents names !! a =
  match agents !! a with
  | Some st => Some st
  | None =>
      if bool_decide (a ∈ names ∧ a ≠ "ANY")
      then Some (mkAgentStatus a true None (isoformat now) 0
                   (_get_agent_capabilities a) 1)
      else None
  end.
Proof.
  revert agents. induction names as [|n names IH]; intros agents;
    cbn [foldl].
  - destruct (agents !! a); [done|].
    rewrite bool_decide_false; [done|]. intros [H _]. by apply elem_of_nil in H.
  - rewrite IH. clear IH.
    destruct (decide (agents !! n = None ∧ n ≠ "ANY")) as [[Hn Hany]|Hno].
    + rewrite (bool_decide_true (agents !! n = None ∧ n ≠ "ANY")) by done.
      destruct (decide (n = a)) as [->|Hne].
      * rewrite lookup_insert_eq, Hn.
        rewrite bool_decide_true; [done|]. split; [left|done].
      * rewrite lookup_insert_ne by done.
        destruct (agents !! a); [done|].
        rewrite (bool_decide_ext (a ∈ n :: names ∧ a ≠ "ANY")
                   (a ∈ names ∧ a ≠ "ANY")); [done|].
        rewrite elem_of_cons. clear -Hne. intuition congruence.
    + rewrite (bool_decide_false (agents !! n = None ∧ n ≠ "ANY")) by done.
      destruct (agents !! a) as [st|] eqn:Ha; [done|].
      rewrite (bool_decide_ext (a ∈ n :: names ∧ a ≠ "ANY")
                 (a ∈ names ∧ a ≠ "ANY")); [done|].
      rewrite elem_of_cons.
      split; [|clear; tauto].
      intros [[->|Hin] Hany]; [|done].
      exfalso. apply Hno. done.
Qed.

Lemma initialize_agents_lookup (self : PriorityQueue) (now : Z) (a : string) :
  _agents (_initialize_agents self now) !! a =
    match _agents self !! a with
    | Some st => Some st
    | None =>
        if bool_decide
             (a ∈ ["FORGE"; "ATLAS"; "CLIO"; "NEXUS"; "BOLT"; "PORTER"])
        then Some (mkAgentStatus a true None (isoformat now) 0
                     (_get_agent_capabilities a) 1)
        else None
    end.
Proof.
  unfold _initialize_agents. cbn [_agents].
  rewrite initialize_agents_fold.
  destruct (_agents self !! a); [done|].
  rewrite (bool_decide_ext (a ∈ AGENTS ∧ a ≠ "ANY")
             (a ∈ ["FORGE"; "ATLAS"; "CLIO"; "NEXUS"; "BOLT"; "PORTER"]));
    [done|].
  unfold AGENTS. split.
  - intros [Hin Hany].
    repeat (apply elem_of_cons in Hin as [->|Hin]);
      [compute_done..|done|by apply elem_of_nil in Hin].
  - intros Hin.
    repeat (apply elem_of_cons in Hin as [->|Hin]);
      [split; [compute_done|done]..|by apply elem_of_nil in Hin].
Qed.

Lemma PriorityQueue_eq (p q : PriorityQueue) :
  _tasks p = _tasks q → _agents p = _agents q → _history p = _history q →
  p = q.
Proof. destruct p, q. simpl. by intros -> -> ->. Qed.

(** X20: [_initialize_agents] keeps every agent record that exists and
    adds, for each of the six roster names without a record, a record that
    is available, has no current task and a zero counter; it adds no
    record under "ANY" or under any other name, and it leaves the tasks
    and the history alone.  Running it again changes nothing. *)
Theorem initialize_agents_roster (self : PriorityQueue) (now : Z) :
  (∀ a,
     _agents (_initialize_agents self now) !! a =
       match _agents self !! a with
       | Some st => Some st
       | None =>
           if bool_decide
                (a ∈ ["FORGE"; "ATLAS"; "CLIO"; "NEXUS"; "BOLT"; "PORTER"])
           then Some (mkAgentStatus a true None (isoformat now) 0
                        (_get_agent_capabilities a) 1)
           else None
       end) ∧
  _tasks (_initialize_agents self now) = _tasks self ∧
  _history (_initialize_agents self now) = _history self ∧
  (∀ later, _initialize_agents (_initialize_agents self now) later =
            _initialize_agents self now).
Proof.
  assert (Htasks : ∀ q t, _tasks (_initialize_agents q t) = _tasks q)
    by reflexivity.
  assert (Hhistory : ∀ q t, _history (_initialize_agents q t) = _history q)
    by reflexivity.
  split; [apply initialize_agents_lookup|].
  split; [apply Htasks|]. split; [apply Hhistory|].
  intros later. apply PriorityQueue_eq; [apply Htasks| |apply Hhistory].
  apply map_eq. intros a. rewrite !initialize_agents_lookup.
  destruct (_agents self !! a); [done|]. by case_bool_decide.
Qed.

(** ** [clear_completed] *)

Lemma filter_iff_elem {A : Type} (P1 P2 : A → Prop)
    `{!∀ x, Decision (P1 x), !∀ x, Decision (P2 x)} (l : list A) :
  (∀ x, x ∈ l → (P1 x ↔ P2 x)) → filter P1 l = filter P2 l.
Proof.
  induction l as [|a l IH]; intros Hiff; [done|].
  assert (filter P1 l = filter P2 l) as Hl.
  { apply IH. intros x Hx. apply Hiff. by right. }
  destruct (decide (P1 a)) as [Ha|Ha].
  - rewrite !filter_cons_True; [by rewrite Hl|..]; [|done].
    apply Hiff; [left|done].
  - rewrite !filter_cons_False; [done|..]; [|done].
    intros Ha2. apply Ha, Hiff; [left|done].
Qed.

Lemma foldl_pop_filter {V : Type} (ks : list string) (d : list (string * V)) :
  NoDup d.*1 → foldl pop d ks = filter (fun e => e.1 ∉ ks) d.
Proof.
  revert d. induction ks as [|k ks IH]; intros d Hd; cbn [foldl].
  - symmetry. apply filter_all. intros e. apply not_elem_of_nil.
  - rewrite IH by (by apply NoDup_keys_pop).
    rewrite pop_filter by done. rewrite list_filter_filter.
    apply list_filter_iff. intros e. rewrite not_elem_of_cons. tauto.
Qed.

Lemma to_remove_expired (cutoff : Z) (d : list (string * Task)) :
  omap
    (fun e : string * Task =>
       let '(task_id, task) := e in
       if bool_decide (status task = COMPLETED) then
         match completed_at task with
         | Some c =>
             if iso_truthy c then
               match fromisoformat c with
               | Some completed =>
                   if completed <? cutoff then Some task_id else None
               | None => None
               end
             else None
         | None => None
         end
       else None)
    d
  = (filter (fun e => expired cutoff e.2 = true) d).*1.
Proof.
  induction d as [|[k t] d IH]; [done|]. cbn [omap list_omap].
  rewrite IH. clear IH. rewrite filter_cons. cbn [snd].
  destruct (expired cutoff t) eqn:Hexp; unfold expired in Hexp.
  - rewrite decide_True by done.
    apply andb_true_iff in Hexp as [-> Hexp].
    destruct (completed_at t) as [[us|raw]|]; [|done..].
    cbn [iso_truthy fromisoformat]. by rewrite Hexp.
  - rewrite decide_False by done.
    destruct (bool_decide (status t = COMPLETED)); [|done].
    destruct (completed_at t) as [[us|raw]|]; cbn [iso_truthy fromisoformat];
      [|by destruct (str_truthy raw)|done].
    cbn [andb] in Hexp. by rewrite Hexp.
Qed.

Lemma filter_not_expired_keys (cutoff : Z) (d : list (string * Task)) :
  NoDup d.*1 →
  filter (fun e => e.1 ∉ (filter (fun e => expired cutoff e.2 = true) d).*1) d
  = filter (fun e => expired cutoff e.2 = false) d.
Proof.
  intros Hd. apply filter_iff_elem. intros [k t] Hin. cbn [fst snd].
  rewrite <- not_true_iff_false. apply not_iff_compat. split.
  - intros Hk. apply list_elem_of_fmap in Hk as [[k' t'] [Hk Hin']].
    cbn [fst] in Hk. subst k'.
    apply list_elem_of_filter in Hin' as [Hexp Hin']. cbn [snd] in Hexp.
    assert (get d k = Some t) as Ht by by apply get_elem_of_NoDup.
    assert (get d k = Some t') as Ht' by by apply get_elem_of_NoDup.
    congruence.
  - intros Hexp. apply list_elem_of_fmap. exists (k, t). split; [done|].
    by apply list_elem_of_filter.
Qed.

Lemma clear_completed_tasks (self : PriorityQueue) (older_than_days now : Z) :
  NoDup (_tasks self).*1 →
  _tasks (clear_completed self older_than_days now).2
  = filter (fun e => expired (now - days older_than_days) e.2 = false)
      (_tasks self).
Proof.
  intros Hd. unfold clear_completed. rewrite to_remove_expired.
  rewrite foldl_pop_filter by done. rewrite filter_not_expired_keys by done.
  by destruct (list_truthy _).
Qed.



Lemma get_filter {V : Type} (P : string * V → Prop)
    `{!∀ e, Decision (P e)} (d : list (string * V)) (k : string) :
  NoDup d.*1 →
  get (filter P d) k =
    match get d k with
    | Some v => if decide (P (k, v)) then Some v else None
    | None => None
    end.
Proof.
  induction d as [|[k0 v0] d IH]; csimpl; [done|].
  intros Hd. apply NoDup_cons in Hd as [Hk0 Hd].
  rewrite filter_cons. destruct (decide (k0 = k)) as [->|Hne].
  - destruct (decide (P (k, v0))); simpl.
    + by rewrite decide_True.
    + rewrite IH by done. by rewrite (proj2 (get_None_keys d k)).
  - destruct (decide (P (k0, v0))); simpl.
    + rewrite decide_False by done. by apply IH.
    + by apply IH.
Qed.

(** X22: [clear_completed] does not recompute the blocked flags: a task
    that is PENDING or BLOCKED and lists a dependency that
    [clear_completed] deletes is left as it was, with the dependency gone
    from the dictionary; the next pass of [_update_blocked_status] then
    sets the task to BLOCKED. *)
Theorem clear_completed_strands_dependents (self : PriorityQueue)
    (older_than_days now : Z) (task_id depends_on : string)
    (task dep_task : Task) :
  NoDup (_tasks self).*1 →
  get (_tasks self) depends_on = Some dep_task →
  expired (now - days older_than_days) dep_task = true →
  get (_tasks self) task_id = Some task →
  status task ∈ [PENDING; BLOCKED] →
  depends_on ∈ dependencies task →
  let cleared := (clear_completed self older_than_days now).2 in
  get (_tasks cleared) task_id = Some task ∧
  get (_tasks cleared) depends_on = None ∧
  get (_tasks (_update_blocked_status cleared)) task_id
    = Some (set_status BLOCKED task).
Proof.
  intros Hd Hdep Hexp Htask Hstatus Hin cleared.
  assert (get (_tasks cleared) task_id = Some task) as Hkept.
  { subst cleared. rewrite clear_completed_tasks by done.
    rewrite get_filter by done. rewrite Htask. cbn [snd].
    rewrite decide_True; [done|]. unfold expired.
    rewrite bool_decide_false; [done|].
    intros Hc. rewrite Hc in Hstatus. revert Hstatus. compute_done. }
  assert (get (_tasks cleared) depends_on = None) as Hgone.
  { subst cleared. rewrite clear_completed_tasks by done.
    rewrite get_filter by done. rewrite Hdep. cbn [snd].
    rewrite decide_False; [done|]. by rewrite Hexp. }
  split; [done|]. split; [done|].
  unfold _update_blocked_status. cbn [_tasks].
  rewrite get_update_blocked, Hkept. cbn. f_equal.
  apply (refresh_status_dangling _ _ depends_on); [|done..].
  intros Hterm. clear -Hstatus Hterm.
  destruct (status task); revert Hstatus Hterm; compute_done.
Qed.

Lemma clear_completed_strands_dependents_witness :
  status <$> get (_tasks demo_queue_done) "main" = Some PENDING ∧
  status <$>
    get (_tasks (_update_blocked_status
                   (clear_completed demo_queue_done 7 (days 8)).2)) "main"
  = Some BLOCKED.
Proof.
  split; [reflexivity|].
  edestruct (clear_completed_strands_dependents demo_queue_done 7 (days 8)
               "main" "dep") as (_ & _ & H);
    [compute_done|reflexivity|reflexivity|reflexivity|compute_done
    |compute_done|].
  rewrite H. reflexivity.
Defined.

(** ** The order [Task.__lt__] and the range of the score *)

(** X23: at one instant [Task.__lt__] is a strict weak order on tasks: no
    task is below itself, the relation is transitive, and so is its
    complement, so that "neither is below the other" is an equivalence. *)
Theorem Task_lt_strict_weak_order (now : Z) :
  (∀ a, Task_lt a a now = false) ∧
  (∀ a b c, Task_lt a b now = true → Task_lt b c now = true →
            Task_lt a c now = true) ∧
  (∀ a b c, Task_lt a b now = false → Task_lt b c now = false →
            Task_lt a c now = false).
Proof.
  unfold Task_lt. split; [|split].
  - intros a. rewrite ltb_calculate_score. apply Nat.ltb_irrefl.
  - intros a b c. rewrite !ltb_calculate_score, !Nat.ltb_lt. lia.
  - intros a b c. rewrite !ltb_calculate_score, !Nat.ltb_ge. lia.
Qed.

Lemma score_range_table :
  forallb
    (fun s =>
       PrimFloat.leb (1 * 0.1 * 0.95 * 0.90) (shape_score s)
       && PrimFloat.leb (shape_score s) 50)
    all_shapes = true.
Proof. vm_compute. reflexivity. Qed.

(** X24: the score of a task is a number between [1 * 0.1 * 0.95 * 0.90],
    the score of an overdue CRITICAL task older than 72 hours, and [50],
    the score of a BLOCKED BACKLOG task; in particular it is never NaN and
    never zero or negative. *)
Theorem calculate_score_range (t : Task) (now : Z) :
  PrimFloat.leb (1 * 0.1 * 0.95 * 0.90) (calculate_score t now) = true ∧
  PrimFloat.leb (calculate_score t now) 50 = true.
Proof.
  rewrite calculate_score_shape.
  pose proof score_range_table as H. rewrite forallb_forall in H.
  specialize (H (shape_of t now)).
  apply andb_true_iff, H, list_elem_of_In, all_shapes_complete.
Qed.

(** ** Invariants of the queue *)

Lemma keyed_by_id_get (tasks : list (string * Task)) (k : string) (t : Task) :
  keyed_by_id tasks → get tasks k = Some t → id t = k.
Proof.
  intros Hk Ht. apply get_Some_elem_of in Ht.
  symmetry. apply (proj1 (Forall_forall _ _) Hk (k, t) Ht).
Qed.

Lemma keyed_by_id_setitem (tasks : list (string * Task)) (k : string)
    (t : Task) :
  keyed_by_id tasks → id t = k → keyed_by_id (setitem tasks k t).
Proof.
  intros Hk Hid. apply Forall_forall. intros e He.
  apply setitem_elem_of in He as [->|He]; [done|].
  apply (proj1 (Forall_forall _ _) Hk e He).
Qed.

Lemma keyed_by_id_pop (tasks : list (string * Task)) (k : string) :
  keyed_by_id tasks → keyed_by_id (pop tasks k).
Proof.
  intros Hk. apply Forall_forall. intros e He.
  apply (proj1 (Forall_forall _ _) Hk e), (pop_elem_of _ k), He.
Qed.

Lemma id_refresh_status (tasks : list (string * Task)) (t : Task) :
  id (refresh_status tasks t) = id t.
Proof. unfold refresh_status. by repeat case_match. Qed.

Lemma keyed_by_id_update_blocked (tasks : list (string * Task)) :
  keyed_by_id tasks → keyed_by_id (update_blocked tasks).
Proof.
  rewrite update_blocked_map. unfold keyed_by_id. intros Hk.
  apply Forall_map. apply (Forall_impl _ _ _ Hk). intros [k t] Hid.
  cbn in *. by rewrite id_refresh_status.
Qed.

Lemma keyed_by_id_run (op : operation) (self : PriorityQueue) (now : Z) :
  keyed_by_id (_tasks self) → keyed_by_id (_tasks (run op self now)).
Proof.
  intros Hk. destruct op; cbn [run].
  - (* add *)
    unfold add. cbn [snd _tasks]. apply keyed_by_id_setitem; [done|].
    by repeat case_match.
  - (* update *)
    unfold update.
    destruct (get (_tasks self) task_id) as [t|] eqn:Ht; cbn; [|done].
    apply keyed_by_id_setitem; [done|].
    rewrite <- (keyed_by_id_get _ _ _ Hk Ht).
    by destruct title', description', priority', category',
      assigned_agent', deadline', tags', estimated_duration', notes'.
  - (* delete *)
    unfold delete.
    destruct (get (_tasks self) task_id); cbn; [|done].
    by apply keyed_by_id_pop.
  - (* start *)
    unfold start.
    destruct (get (_tasks self) task_id) as [t|] eqn:Ht; cbn; [|done].
    destruct (bool_decide (status t = BLOCKED)); cbn; [done|].
    destruct agent as [a|]; [destruct (str_truthy a)|]; cbn;
      (apply keyed_by_id_setitem; [done|]);
      apply (keyed_by_id_get _ _ _ Hk Ht).
  - (* complete *)
    unfold complete.
    destruct (get (_tasks self) task_id) as [t|] eqn:Ht; cbn; [|done].
    apply keyed_by_id_update_blocked, keyed_by_id_setitem; [done|].
    rewrite <- (keyed_by_id_get _ _ _ Hk Ht).
    destruct (str_truthy notes'); cbn;
      (destruct (started_at t) as [[s|raw]|]; cbn;
       [done|by destruct (str_truthy raw)|done]).
  - (* fail *)
    unfold fail.
    destruct (get (_tasks self) task_id) as [t|] eqn:Ht; cbn; [|done].
    apply keyed_by_id_setitem; [done|].
    rewrite <- (keyed_by_id_get _ _ _ Hk Ht). by destruct (str_truthy reason).
  - (* cancel *)
    unfold cancel.
    destruct (get (_tasks self) task_id) as [t|] eqn:Ht; cbn; [|done].
    apply keyed_by_id_setitem; [done|].
    rewrite <- (keyed_by_id_get _ _ _ Hk Ht). by destruct (str_truthy reason).
  - (* add_dependency *)
    unfold add_dependency.
    destruct (get (_tasks self) task_id) as [t|] eqn:Ht; cbn; [|done].
    destruct (get (_tasks self) depends_on); cbn; [|done].
    destruct (_would_create_cycle _ _ _); cbn; [done|].
    apply keyed_by_id_update_blocked, keyed_by_id_setitem; [done|].
    rewrite <- (keyed_by_id_get _ _ _ Hk Ht). by case_bool_decide.
  - (* remove_dependency *)
    unfold remove_dependency.
    destruct (get (_tasks self) task_id) as [t|] eqn:Ht; cbn; [|done].
    apply keyed_by_id_update_blocked, keyed_by_id_setitem; [done|].
    rewrite <- (keyed_by_id_get _ _ _ Hk Ht). by case_bool_decide.
Qed.

(** X25: whatever calls of [add], [update], [delete], [start], [complete],
    [fail], [cancel], [add_dependency] and [remove_dependency] are made on
    a queue created empty, in whatever order and with whatever arguments
    and clock readings, the
    task dictionary has no key twice, files every task under the task's
    own [id], and holds no BLOCKED task whose dependencies are all
    COMPLETED or that has no dependencies. *)
Theorem invariants_hold_after_any_calls (calls : list (operation * Z))
    (now : Z) :
  let tasks := _tasks (run_all calls (new_queue now)) in
  NoDup tasks.*1 ∧ keyed_by_id tasks ∧ no_stale_blocked tasks = true.
Proof.
  cbn zeta.
  assert (∀ self,
    well_formed (_tasks self) ∧ keyed_by_id (_tasks self) →
    well_formed (_tasks (run_all calls self))
    ∧ keyed_by_id (_tasks (run_all calls self))) as Hinv.
  { unfold run_all. induction calls as [|[op t] calls IH]; [done|].
    intros self [Hwf Hk]. cbn [foldl fst snd]. apply IH.
    split; [by apply well_formed_run|by apply keyed_by_id_run]. }
  destruct (Hinv (new_queue now)) as [[Hnd Hstale] Hk].
  { split; [apply well_formed_new_queue|]. apply Forall_nil_2. }
  done.
Qed.

Lemma roster_intact_insert (agents : gmap string AgentStatus) (k : string)
    (st st' : AgentStatus) :
  roster_intact agents → agents !! k = Some st →
  name st' = name st → capabilities st' = capabilities st →
  max_concurrent st' = max_concurrent st →
  roster_intact (<[k := st']> agents).
Proof.
  intros Hr Hk Hn Hc Hm a. destruct (decide (k = a)) as [->|Hne].
  - rewrite lookup_insert_eq. specialize (Hr a). rewrite Hk in Hr.
    by rewrite Hn, Hc, Hm.
  - rewrite lookup_insert_ne by done. apply Hr.
Qed.

Lemma roster_intact_run (op : operation) (self : PriorityQueue) (now : Z) :
  roster_intact (_agents self) → roster_intact (_agents (run op self now)).
Proof.
  intros Hr. destruct op; cbn [run].
  - done.
  - unfold update. by destruct (get (_tasks self) task_id).
  - unfold delete. by destruct (get (_tasks self) task_id).
  - unfold start.
    destruct (get (_tasks self) task_id) as [t|]; cbn; [|done].
    destruct (bool_decide (status t = BLOCKED)); cbn; [done|].
    destruct agent as [a|]; [destruct (str_truthy a)|]; cbn; try done.
    destruct (_agents self !! a) as [st|] eqn:Ha; [|done].
    by apply (roster_intact_insert _ _ st).
  - unfold complete.
    destruct (get (_tasks self) task_id) as [t|]; cbn [snd _agents]; [|done].
    match goal with
    | |- context [_agents self !! ?k] =>
        destruct (_agents self !! k) as [st|] eqn:Ha; [|done]
    end.
    by apply (roster_intact_insert _ _ st).
  - unfold fail.
    destruct (get (_tasks self) task_id) as [t|]; cbn [snd _agents]; [|done].
    match goal with
    | |- context [_agents self !! ?k] =>
        destruct (_agents self !! k) as [st|] eqn:Ha; [|done]
    end.
    by apply (roster_intact_insert _ _ st).
  - unfold cancel.
    destruct (get (_tasks self) task_id) as [t|]; cbn [snd _agents]; [|done].
    match goal with
    | |- context [_agents self !! ?k] =>
        destruct (_agents self !! k) as [st|] eqn:Ha; [|done]
    end.
    case_bool_decide; [|done].
    by apply (roster_intact_insert _ _ st).
  - unfold add_dependency.
    destruct (get (_tasks self) task_id) as [t|]; cbn; [|done].
    destruct (get (_tasks self) depends_on); cbn; [|done].
    by destruct (_would_create_cycle _ _ _).
  - unfold remove_dependency.
    by destruct (get (_tasks self) task_id).
Qed.

(** X26: whatever calls of [add], [update], [delete], [start], [complete],
    [fail], [cancel], [add_dependency] and [remove_dependency] are made on
    a queue created empty, the agent registry holds exactly the six roster agents, each under its own
    name with its default capabilities and a capacity of one: no call
    registers, removes or renames an agent, and "ANY" is never an agent. *)
Theorem roster_intact_after_any_calls (calls : list (operation * Z))
    (now : Z) :
  roster_intact (_agents (run_all calls (new_queue now))).
Proof.
  assert (∀ self, roster_intact (_agents self) →
                  roster_intact (_agents (run_all calls self))) as Hinv.
  { unfold run_all. induction calls as [|[op t] calls IH]; [done|].
    intros self Hr. cbn [foldl fst snd]. by apply IH, roster_intact_run. }
  apply Hinv. intros a. unfold new_queue.
  rewrite initialize_agents_lookup. cbn [_agents].
  rewrite lookup_empty. by case_bool_decide.
Qed.

(** ** [get_next] followed by [start] *)

Lemma elem_of_values_get (tasks : list (string * Task)) (t : Task) :
  NoDup tasks.*1 → keyed_by_id tasks → t ∈ values tasks →
  get tasks (id t) = Some t.
Proof.
  intros Hnd Hk Ht. unfold values in Ht.
  apply list_elem_of_fmap in Ht as [[k t'] [-> Hin]]. cbn [snd].
  apply get_elem_of_NoDup; [done|].
  pose proof (proj1 (Forall_forall _ _) Hk (k, t') Hin) as Hid.
  cbn [fst snd] in Hid. by rewrite <- Hid.
Qed.

Lemma get_next_Some (self self' : PriorityQueue) (agent : option string)
    (now : Z) (task : Task) :
  NoDup (_tasks self).*1 → keyed_by_id (_tasks self) →
  get_next self agent now = (Some task, self') →
  self' = _update_blocked_status self ∧
  get (_tasks self') (id task) = Some task ∧ status task = PENDING.
Proof.
  intros Hnd Hk. rewrite get_next_candidates. intros [= Hhead <-].
  split; [done|].
  assert (task ∈ candidates self agent) as Hin.
  { rewrite <- (sort_by_Permutation (fun t => calculate_score t now)).
    destruct (sort_by _ _) as [|h s]; [done|].
    injection Hhead as ->. left. }
  unfold candidates in Hin. apply list_elem_of_filter in Hin as [[_ Hs] Hin].
  split; [|done]. apply elem_of_values_get; [| |done].
  - cbn [_update_blocked_status _tasks]. by rewrite keys_update_blocked.
  - by apply keyed_by_id_update_blocked.
Qed.

(** X27: on a dictionary without repeated keys that files every task under
    its [id], the task [get_next] returns can be started: [start] on its
    [id], at any instant and for the same agent, returns [True] and leaves
    the task IN_PROGRESS; asked right after that, [get_next] returns a
    different task or none, whoever asks. *)
Theorem get_next_then_start (self self' : PriorityQueue)
    (agent : option string) (now later : Z) (task : Task) :
  NoDup (_tasks self).*1 → keyed_by_id (_tasks self) →
  get_next self agent now = (Some task, self') →
  let started := start self' (id task) agent later in
  started.1 = true ∧
  status <$> get (_tasks started.2) (id task) = Some IN_PROGRESS ∧
  ∀ agent2 now2 task2,
    (get_next started.2 agent2 now2).1 = Some task2 → id task2 ≠ id task.
Proof.
  intros Hnd Hk Hnext started.
  destruct (get_next_Some _ _ _ _ _ Hnd Hk Hnext) as (-> & Hget & Hs).
  set (self' := _update_blocked_status self) in *.
  assert (NoDup (_tasks self').*1) as Hnd'.
  { subst self'. cbn [_update_blocked_status _tasks].
    by rewrite keys_update_blocked. }
  assert (keyed_by_id (_tasks self')) as Hk'.
  { subst self'. by apply keyed_by_id_update_blocked. }
  assert (∃ task',
    started = (true, mkPriorityQueue (setitem (_tasks self') (id task) task')
                       (_agents started.2) (_history started.2))
    ∧ status task' = IN_PROGRESS ∧ id task' = id task)
    as (task' & Hstarted & Hs' & Hid').
  { subst started. unfold start. rewrite Hget.
    rewrite bool_decide_false by (by rewrite Hs).
    destruct agent as [a|]; [destruct (str_truthy a)|]; cbn;
      eexists; (split; [reflexivity|by split]). }
  rewrite Hstarted. cbn [fst snd _tasks]. split; [done|].
  split; [by rewrite get_setitem_eq; cbn; rewrite Hs'|].
  intros agent2 now2 task2 Hnext2 Hid.
  destruct (get_next _ agent2 now2) as [o q2] eqn:Hn2. cbn [fst] in Hnext2.
  subst o.
  apply get_next_Some in Hn2 as (-> & Hget2 & Hs2); cbn [_tasks].
  - revert Hget2. cbn [_update_blocked_status _tasks].
    rewrite get_update_blocked, Hid, get_setitem_eq. cbn.
    rewrite refresh_status_terminal by (rewrite Hs'; compute_done).
    intros [= <-]. by rewrite Hs' in Hs2.
  - by apply NoDup_keys_setitem.
  - by apply keyed_by_id_setitem.
Qed.

Lemma get_next_then_start_witness :
  (get_next demo_queue (Some "ATLAS") 4).1 = Some
    (mkTask "dep" "Dep" "" PENDING MEDIUM OTHER "ANY" "" (Instant 1) None
       [] [] 30 None None None "") ∧
  (start (get_next demo_queue (Some "ATLAS") 4).2 "dep" (Some "ATLAS") 5).1
    = true.
Proof.
  split; [reflexivity|].
  apply (get_next_then_start demo_queue
           (get_next demo_queue (Some "ATLAS") 4).2 (Some "ATLAS") 4 5
           (mkTask "dep" "Dep" "" PENDING MEDIUM OTHER "ANY" "" (Instant 1)
              None [] [] 30 None None None "")).
  - compute_done.
  - repeat constructor.
  - reflexivity.
Defined.

(** ** [get_next] and the agent registry *)

(** X28: what [get_next] returns depends on the task dictionary alone: the
    agent registry (availability, current task, capabilities) and the
    history are never consulted.  In particular marking an agent
    unavailable with [set_agent_available] does not change the task
    [get_next] returns for that agent. *)
Theorem get_next_ignores_registry (self : PriorityQueue)
    (agent : option string) (now : Z) :
  (∀ agents' history',
     (get_next (mkPriorityQueue (_tasks self) agents' history') agent now).1
     = (get_next self agent now).1) ∧
  (∀ a available' t,
     (get_next (set_agent_available self a available' t).2 agent now).1
     = (get_next self agent now).1).
Proof.
  assert (∀ q, _tasks q = _tasks self →
               (get_next q agent now).1 = (get_next self agent now).1) as H.
  { intros q Hq. rewrite !get_next_candidates. cbn [fst].
    unfold candidates, _update_blocked_status. cbn [_tasks]. by rewrite Hq. }
  split.
  - intros agents' history'. by apply H.
  - intros a available' t. apply H. unfold set_agent_available.
    by destruct (_agents self !! a).
Qed.
